(** * Car Rental API: the serializer, the query builder and the endpoints

    A shallow embedding of [main.py] (FastAPI routes over a MongoDB
    database) and of the request and record shapes of [schemas.py].

    - Python dictionaries ([Dict[str, Any]]) are [gmap string value];
    - Python exceptions are an error monad [result];
    - the database is an explicit state, [option database]: [None] is the
      module-level [db is None], the "no database configured" mode;
    - what belongs to the framework, the driver and the interpreter and not
      to this repository is kept small and named: the identifier format of
      [bson.ObjectId], the way the store evaluates the three query shapes this
      program builds, the status FastAPI answers with for each outcome.

    Assumed throughout, and outside what is proved: the store answers
    every call (no connection failure is modelled), and a [float] is finite
    (an infinity or a NaN, which JSON as Python reads it can carry, is not a
    value here).  The liveness route [/] returns a constant and is left
    out. *)

From Stdlib Require Import ZArith QArith Ascii.
From stdpp Require Import base option list gmap strings pretty.

Set Warnings "-register-all".
Set Default Proof Using "Type".

Open Scope string_scope.
Open Scope list_scope.
Open Scope Z_scope.

(* ================================================================== *)
(** ** Identifiers of the store ([bson.ObjectId]) *)
(* ================================================================== *)

Module Bson.

(** An ObjectId holds the bytes its constructor was given.  Those the
    store hands out, and those 24 hexadecimal digits spell, are twelve
    bytes, held here as the number they spell ([Oid]).  The constructor
    also takes a 24-character string that sets its bytes apart with white
    space, and so spells fewer than twelve ([Short]). *)
Inductive oid :=
  | Oid (binary : N)
  | Short (bytes : list N).

Definition oid_eqb (a b : oid) : bool :=
  match a, b with
  | Oid x, Oid y => (x =? y)%N
  | Short x, Short y => bool_decide (x = y)
  | _, _ => false
  end.

Definition hex_char (d : N) : ascii :=
  default "0"%char (String.get (N.to_nat d) "0123456789abcdef").

Definition digit_val (c : ascii) : option N :=
  let n := N_of_ascii c in
  if ((48 <=? n) && (n <=? 57))%N then Some (n - 48)%N
  else if ((97 <=? n) && (n <=? 102))%N then Some (n - 87)%N
  else if ((65 <=? n) && (n <=? 70))%N then Some (n - 55)%N
  else None.

(** ASCII white space: the space, and tab to carriage return. *)
Definition is_space (c : ascii) : bool :=
  let n := N_of_ascii c in
  ((n =? 32) || ((9 <=? n) && (n <=? 13)))%N.

(** [hex_of k n acc]: the [k] low hexadecimal digits of [n], most
    significant first, in front of [acc]. *)
Fixpoint hex_of (k : nat) (n : N) (acc : string) : string :=
  match k with
  | O => acc
  | S k' => hex_of k' (n / 16)%N (String (hex_char (n mod 16)%N) acc)
  end.

(** [bytes.fromhex(s)]: two hexadecimal digits a byte; white space in
    front of a byte, and at the end, is skipped; [None] is its
    [ValueError]. *)
Fixpoint fromhex (s : string) : option (list N) :=
  match s with
  | EmptyString => Some []
  | String c s' =>
      if is_space c then fromhex s'
      else
        match digit_val c, s' with
        | Some top, String c' s'' =>
            match digit_val c' with
            | Some bot => cons (16 * top + bot)%N <$> fromhex s''
            | None => None
            end
        | _, _ => None
        end
  end.

(** The number that bytes spell, the first the most significant, and
    the [k] bytes that spell a number. *)
Definition spelled (bytes : list N) : N :=
  foldl (λ acc b, 256 * acc + b)%N 0%N bytes.

Fixpoint be_bytes (k : nat) (n : N) : list N :=
  match k with
  | O => []
  | S k' => be_bytes k' (n / 256)%N ++ [(n mod 256)%N]
  end.

Definition of_bytes (bytes : list N) : oid :=
  if (length bytes =? 12)%nat then Oid (spelled bytes) else Short bytes.

(** [binascii.hexlify] *)
Definition hexlify (bytes : list N) : string :=
  foldr (λ b acc, String (hex_char (b / 16)%N) (String (hex_char (b mod 16)%N) acc))
        EmptyString bytes.

(** [str(oid)]: two lowercase hexadecimal digits a byte, 24 for twelve
    bytes. *)
Definition oid_str (o : oid) : string :=
  match o with
  | Oid n => hex_of 24 n ""
  | Short bytes => hexlify bytes
  end.

(** [ObjectId.is_valid(s)] on a [str]: the constructor takes it, which
    it does when [s] has 24 characters and [bytes.fromhex] reads it. *)
Definition is_valid (s : string) : bool :=
  (String.length s =? 24)%nat && bool_decide (is_Some (fromhex s)).

End Bson.

(* ================================================================== *)
(** ** Values, documents, exceptions *)
(* ================================================================== *)

(** The values a record of the store or a JSON body holds.  A Python
    [float] is held as a rational: the finite values, with their order. *)
Inductive value :=
  | VNone
  | VBool (b : bool)
  | VInt (z : Z)
  | VFloat (q : Q)
  | VStr (s : string)
  | VOid (o : Bson.oid)
  | VList (l : list value)
  | VDict (d : gmap string value).

Abbreviation document := (gmap string value).

(** The exceptions this program meets.  [HTTPException] is raised by the
    routes; [RequestValidationError] is FastAPI's, raised before the route
    body runs when a parameter breaks its [Query(...)] constraint. *)
Inductive exn :=
  | KeyError (key : string)
  | InvalidId (s : string)
  | HTTPException (status_code : Z) (detail : string)
  | RequestValidationError.

Inductive result (A : Type) :=
  | Return (a : A)
  | Raise (e : exn).
Arguments Return {A} a.
Arguments Raise {A} e.

#[global] Instance result_ret : MRet result := λ A a, Return a.
#[global] Instance result_bind : MBind result := λ A B f m,
  match m with Return a => f a | Raise e => Raise e end.

(** An identifier somewhere in a value: the value itself, or inside
    a list or a dictionary it holds. *)
Fixpoint has_oid (v : value) : bool :=
  match v with
  | VOid _ => true
  | VList l => existsb has_oid l
  | VDict d => map_fold (λ _ x found, has_oid x || found) false d
  | _ => false
  end.

(** What a route returns is encoded to JSON ([jsonable_encoder], then
    [json.dumps]) before it is sent.  Strings, numbers, Booleans, [None],
    lists and dictionaries of such are encoded; an [ObjectId] is not, and
    the encoder raises. *)
Class Body (A : Type) := encodable : A → bool.

#[global] Instance document_body : Body document := λ d,
  forallb (λ kv, negb (has_oid kv.2)) (map_to_list d).

#[global] Instance option_body {A} `{Body A} : Body (option A) :=
  from_option encodable true.

(** The status FastAPI answers with: 200 for a returned body that it can
    encode (no route of [main.py] sets another), 500 for one it cannot, the
    exception's own code for an [HTTPException], 422 for a request that
    fails validation, 500 for any other exception that leaves the route. *)
Definition status {A} `{Body A} (r : result A) : Z :=
  match r with
  | Return body => if encodable body then 200 else 500
  | Raise (HTTPException c _) => c
  | Raise RequestValidationError => 422
  | Raise _ => 500
  end.

(** [bson.ObjectId(s)] for a [str] argument:
<<
    if len(oid) == 24:
        try:
            self.__id = bytes.fromhex(oid)
        except (TypeError, ValueError):
            _raise_invalid_id(oid)
    else:
        _raise_invalid_id(oid)
>>
    [len] counts characters and [String.length] bytes; they differ only on
    a string with a character outside ASCII, which [fromhex] refuses
    whatever its length, so the outcome is the same. *)
Definition ObjectId (s : string) : result Bson.oid :=
  if (String.length s =? 24)%nat then
    match Bson.fromhex s with
    | Some bytes => Return (Bson.of_bytes bytes)
    | None => Raise (InvalidId s)
    end
  else Raise (InvalidId s).

(** What Python and the store do and this repository does not decide:
    [str()] of a value that is neither a string nor an identifier, and the
    order in which the store's [sort] leaves the records, of which only
    this is used: sorting permutes. *)
Class Host := {
  py_repr : value → string;
  cursor_sort : string → Z → list document → list document;
  cursor_sort_perm : ∀ field direction l, cursor_sort field direction l ≡ₚ l
}.

Section Serializer.
Context `{Host}.

(** Python's [str(v)]. *)
Definition str (v : value) : string :=
  match v with
  | VStr s => s
  | VOid o => Bson.oid_str o
  | _ => py_repr v
  end.

(** [isinstance(v, ObjectId)] *)
Definition is_oid (v : value) : bool :=
  match v with VOid _ => true | _ => false end.

(** [not doc] for a dictionary *)
Definition is_empty (doc : document) : bool :=
  match map_to_list doc with [] => true | _ => false end.

(** One turn of the loop of [serialize_doc]:
    [if isinstance(v, ObjectId): doc[k] = str(v)]. *)
Definition stringify_step (k : string) (v : value) (doc : document) : document :=
  if is_oid v then <[k := VStr (str v)]> doc else doc.

(** [serialize_doc]; [None] is Python's [None].
<<
    if not doc:
        return doc
    doc["id"] = str(doc.pop("_id"))
    for k, v in list(doc.items()):
        if isinstance(v, ObjectId):
            doc[k] = str(v)
    return doc
>> *)
Definition serialize_doc (doc : option document) : result (option document) :=
  match doc with
  | None => Return None
  | Some d =>
      if is_empty d then Return (Some d)
      else
        match d !! "_id" with
        | None => Raise (KeyError "_id")
        | Some v =>
            let d1 := <["id" := VStr (str v)]> (delete "_id" d) in
            Return (Some (map_fold stringify_step d1 d1))
        end
  end.

(** What the loop does to one value. *)
Definition stringify (v : value) : value :=
  if is_oid v then VStr (str v) else v.

End Serializer.

(* ================================================================== *)
(** ** The record store (pymongo), as far as this program uses it *)
(* ================================================================== *)

Module Store.

Inductive number :=
  | Int (z : Z)
  | Float (q : Q).

Definition to_Q (n : number) : Q :=
  match n with Int z => inject_Z z | Float q => q end.

(** The conditions [main.py] puts on a field:
    [{field: "text"}], [{field: oid}] and
    [{field: {"$gte": a, "$lte": b}}] with either operator optional. *)
Inductive cond :=
  | EqStr (s : string)
  | EqOid (o : Bson.oid)
  | Range (gte lte : option number).

Abbreviation query := (gmap string cond).

(** A field that holds an array meets a condition when an element
    does; each operator of a range looks for an element of its own. *)
Definition candidates (v : value) : list value :=
  match v with VList l => l | _ => [v] end.

Definition is_str (s : string) (v : value) : bool :=
  match v with VStr s' => String.eqb s s' | _ => false end.

Definition is_id (o : Bson.oid) (v : value) : bool :=
  match v with VOid o' => Bson.oid_eqb o o' | _ => false end.

(** Numbers compare by value, whatever their type; nothing else
    compares with a number. *)
Definition number_of (v : value) : option Q :=
  match v with
  | VInt z => Some (inject_Z z)
  | VFloat q => Some q
  | _ => None
  end.

Definition is_ge (bound : number) (v : value) : bool :=
  match number_of v with Some q => Qle_bool (to_Q bound) q | None => false end.

Definition is_le (bound : number) (v : value) : bool :=
  match number_of v with Some q => Qle_bool q (to_Q bound) | None => false end.

Definition is_empty_dict (v : value) : bool :=
  match v with
  | VDict d => match map_to_list d with [] => true | _ => false end
  | _ => false
  end.

(** A condition on a field that holds [v]. *)
Definition holds (c : cond) (v : value) : bool :=
  match c with
  | EqStr s => existsb (is_str s) (candidates v)
  | EqOid o => existsb (is_id o) (candidates v)
  | Range None None => existsb is_empty_dict (candidates v)
  | Range gte lte =>
      from_option (λ a, existsb (is_ge a) (candidates v)) true gte
      && from_option (λ b, existsb (is_le b) (candidates v)) true lte
  end.

(** A record without the field meets none of these conditions. *)
Definition test (c : cond) (field : option value) : bool :=
  from_option (holds c) false field.

(** A query is the conjunction of its conditions. *)
Definition matches (q : query) (doc : document) : bool :=
  forallb (λ kc, test kc.2 (doc !! kc.1)) (map_to_list q).

Abbreviation collection := (list document).

(** [collection.find(q)], in insertion order *)
Definition find (c : collection) (q : query) : list document :=
  List.filter (matches q) c.

(** [collection.find_one(q)] *)
Definition find_one (c : collection) (q : query) : option document :=
  head (find c q).

(** [collection.count_documents(q)] *)
Definition count_documents (c : collection) (q : query) : Z :=
  Z.of_nat (length (find c q)).

(** [cursor.limit(n)]: zero is no limit, a negative limit counts as its
    absolute value. *)
Definition limit (n : Z) (cursor : list document) : list document :=
  if (n =? 0)%Z then cursor else take (Z.to_nat (Z.abs n)) cursor.

(** The database: its named collections and the next identifier the
    driver hands out.  The driver draws identifiers from a clock, a
    random value and a counter; the counter stands for all three. *)
Record database := Database {
  collections : gmap string collection;
  next_oid : N
}.

(** [db[name]]: a collection that was never written to is empty. *)
Definition coll (db : database) (name : string) : collection :=
  default [] (collections db !! name).

(** [collection.insert_one(doc)]: a record that brings no [_id] is
    given a new one; the record goes to the end of the collection. *)
Definition insert_one (db : database) (name : string) (doc : document)
  : database * value :=
  match doc !! "_id" with
  | Some v =>
      (Database (<[name := coll db name ++ [doc]]> (collections db)) (next_oid db), v)
  | None =>
      let o := VOid (Bson.Oid (next_oid db)) in
      (Database (<[name := coll db name ++ [<["_id" := o]> doc]]> (collections db))
                (N.succ (next_oid db)), o)
  end.

(** [collection.insert_many(docs)] *)
Fixpoint insert_many (db : database) (name : string) (docs : list document)
  : database :=
  match docs with
  | [] => db
  | d :: ds => insert_many (insert_one db name d).1 name ds
  end.

End Store.

Export Store.

(* ================================================================== *)
(** ** The routes of [main.py] *)
(* ================================================================== *)

(** Python's truth value of an [Optional[str]]: [None] and the empty
    string are false. *)
Definition truthy (o : option string) : bool :=
  match o with
  | Some s => negb (String.eqb s "")
  | None => false
  end.

(** [o is not None] *)
Definition is_not_None {A} (o : option A) : bool :=
  match o with Some _ => true | None => false end.

(** [not doc] for what [find_one] returns *)
Definition falsy (doc : option document) : bool :=
  match doc with
  | None => true
  | Some d => match map_to_list d with [] => true | _ => false end
  end.

(** [l[:n]] *)
Definition slice_to {A} (n : Z) (l : list A) : list A :=
  if n <? 0 then take (length l - Z.to_nat (- n)) l
  else take (Z.to_nat n) l.

(** [Query(..., ge=lo, le=hi)] on an optional integer *)
Definition ge_le (lo hi : Z) (o : option Z) : bool :=
  from_option (λ n, (lo <=? n) && (n <=? hi)) true o.

(** [Query(None, ge=0)] on an optional float *)
Definition ge_0 (o : option Q) : bool :=
  from_option (Qle_bool 0) true o.

(** [class BookingRequest(BaseModel)], with a finite [total_price]. *)
Record BookingRequest := {
  user_id : string;
  car_id : string;
  pickup_location : string;
  dropoff_location : string;
  start_date : string;
  end_date : string;
  total_price : Q;
  notes : option string
}.

(** [payload.model_dump()] *)
Definition model_dump (p : BookingRequest) : document :=
  list_to_map [
    ("user_id", VStr (user_id p));
    ("car_id", VStr (car_id p));
    ("pickup_location", VStr (pickup_location p));
    ("dropoff_location", VStr (dropoff_location p));
    ("start_date", VStr (start_date p));
    ("end_date", VStr (end_date p));
    ("total_price", VFloat (total_price p));
    ("notes", from_option VStr VNone (notes p))
  ].

(** The body of the two listing routes: [{"items": ..., "count": ...}] *)
Record listing := Listing {
  items : list (option document);
  count : Z
}.

#[global] Instance listing_body : Body listing := λ body,
  forallb encodable (items body).

Definition image_tesla : string :=
  "https://images.unsplash.com/photo-1511390420183-3a2c5a36f3f1?q=80&w=1200&auto=format&fit=crop".
Definition image_bmw : string :=
  "https://images.unsplash.com/photo-1619767886558-efdc259cde1c?q=80&w=1200&auto=format&fit=crop".
Definition image_corolla : string :=
  "https://images.unsplash.com/photo-1549921296-3c2b3f6b33b5?q=80&w=1200&auto=format&fit=crop".

(** The fields the fixed car records share. *)
Definition car_record (brand model type fuel_type : string)
    (luggage mileage price_per_day popularity : Z)
    (images features : list string) (description : string)
  : list (string * value) :=
  [ ("brand", VStr brand);
    ("model", VStr model);
    ("type", VStr type);
    ("transmission", VStr "automatic");
    ("fuel_type", VStr fuel_type);
    ("seats", VInt 5);
    ("luggage", VInt luggage);
    ("mileage", VInt mileage);
    ("price_per_day", VInt price_per_day);
    ("popularity", VInt popularity);
    ("images", VList (VStr <$> images));
    ("features", VList (VStr <$> features));
    ("available", VBool true);
    ("description", VStr description) ].

Definition tesla_model_3 : list (string * value) :=
  car_record "Tesla" "Model 3" "sedan" "electric" 3 12000 89 98
    [image_tesla] ["Autopilot"; "Bluetooth"; "A/C"]
    "Sleek EV with long range and premium comfort.".

Definition bmw_x5 : list (string * value) :=
  car_record "BMW" "X5" "suv" "hybrid" 4 24000 129 92
    [image_bmw] ["Panoramic Roof"; "Leather"; "GPS"]
    "Luxury SUV perfect for family trips.".

Definition toyota_corolla : list (string * value) :=
  car_record "Toyota" "Corolla" "sedan" "petrol" 3 40000 49 85
    [image_corolla] ["Great MPG"; "A/C"; "USB"]
    "Reliable and efficient daily driver.".

(** [demo] of [list_cars] *)
Definition demo_cars : list document :=
  [ list_to_map (("id", VStr "demo-1") :: tesla_model_3);
    list_to_map (("id", VStr "demo-2") :: bmw_x5) ].

(** [cars] of [seed_demo_cars] *)
Definition seed_cars : list document :=
  [ list_to_map tesla_model_3; list_to_map bmw_x5; list_to_map toyota_corolla ].

(** The car [get_car] answers with when there is no database. *)
Definition demo_car (car_id : string) : document :=
  list_to_map
    (("id", VStr car_id) ::
     car_record "Tesla" "Model 3 Performance" "sedan" "electric" 3 12000 99 99
       [image_tesla; image_corolla]
       ["Autopilot"; "Heated Seats"; "Premium Audio"]
       "Performance EV with thrilling acceleration." ++
     [("reviews", VList [
        VDict (list_to_map [("user", VStr "Alex"); ("rating", VInt 5);
                            ("comment", VStr "Amazing ride!")]);
        VDict (list_to_map [("user", VStr "Sam"); ("rating", VInt 4);
                            ("comment", VStr "Very comfortable.")]) ])]).

(** [demo] of [list_bookings] *)
Definition demo_bookings : list document :=
  [ list_to_map [
      ("id", VStr "demo-book-1");
      ("user_id", VStr "u1");
      ("car_id", VStr "demo-1");
      ("pickup_location", VStr "Downtown");
      ("dropoff_location", VStr "Airport");
      ("start_date", VStr "2025-12-01");
      ("end_date", VStr "2025-12-05");
      ("total_price", VInt 356);
      ("status", VStr "confirmed");
      ("payment_status", VStr "paid") ] ].

(** [sort_map] of [list_cars] *)
Definition sort_map : gmap string (string * Z) :=
  list_to_map [
    ("price_asc", ("price_per_day", 1));
    ("price_desc", ("price_per_day", -1));
    ("popularity", ("popularity", -1));
    ("newest", ("created_at", -1)) ].

(** [if value: query[key] = value] *)
Definition set_if (key : string) (o : option string) (q : query) : query :=
  if truthy o then from_option (λ s, <[key := EqStr s]> q) q o else q.

(** The query [list_cars] builds (lines 128 to 145). *)
Definition car_query (type brand transmission fuel_type : option string)
    (seats_gte : option Z) (min_price max_price : option Q) : query :=
  let query : query := ∅ in
  let query := set_if "type" type query in
  let query := set_if "brand" brand query in
  let query := set_if "transmission" transmission query in
  let query := set_if "fuel_type" fuel_type query in
  let query :=
    match seats_gte with
    | Some n => <["seats" := Range (Some (Int n)) None]> query
    | None => query
    end in
  if is_not_None min_price || is_not_None max_price then
    let price_q := Range (Float <$> min_price) (Float <$> max_price) in
    <["price_per_day" := price_q]> query
  else query.

(** The query [list_bookings] builds. *)
Definition booking_query (user_id : option string) : query :=
  set_if "user_id" user_id ∅.

Section Routes.
Context `{Host}.

(** The items of a cursor, serialized one after the other:
    [[serialize_doc(doc) for doc in cursor]]. *)
Fixpoint serialize_all (cursor : list document) : result (list (option document)) :=
  match cursor with
  | [] => Return []
  | doc :: rest =>
      item ← serialize_doc (Some doc);
      items ← serialize_all rest;
      Return (item :: items)
  end.

(** [GET /api/cars].  The constraints of the signature come first: FastAPI
    checks them before the body runs. *)
Definition list_cars (db : option database)
    (type brand transmission fuel_type : option string)
    (seats_gte : option Z) (min_price max_price : option Q)
    (sort : option string) (limit : option Z) : result listing :=
  let limit := default 50 limit in
  if negb (ge_le 1 9 seats_gte && ge_0 min_price && ge_0 max_price
           && ge_le 1 200 (Some limit))
  then Raise RequestValidationError
  else
    match db with
    | None =>
        let demo := demo_cars in
        Return (Listing (Some <$> slice_to limit demo)
                        (Z.of_nat (length (slice_to limit demo))))
    | Some db =>
        let query :=
          car_query type brand transmission fuel_type seats_gte min_price max_price in
        let cursor := find (coll db "car") query in
        let cursor :=
          if truthy sort then
            match sort_map !! default "" sort with
            | Some (field, direction) => cursor_sort field direction cursor
            | None => cursor
            end
          else cursor in
        let cursor := Store.limit limit cursor in
        items ← serialize_all cursor;
        Return (Listing items (Z.of_nat (length items)))
    end.

(** [GET /api/cars/{car_id}] *)
Definition get_car (db : option database) (car_id : string)
  : result (option document) :=
  match db with
  | None => Return (Some (demo_car car_id))
  | Some db =>
      match ObjectId car_id with
      | Raise _ => Raise (HTTPException 400 "Invalid car id")
      | Return oid =>
          let doc := find_one (coll db "car") {["_id" := EqOid oid]} in
          if falsy doc then Raise (HTTPException 404 "Car not found")
          else serialize_doc doc
      end
  end.

(** Modelled from the spec: [create_document] of [database.py], which is
    not among the sources.  The spec gives the gateway
    [insert(collection, record) -> assigned identifier]: the record is
    stored under an identifier the store assigns, and that identifier is
    returned (in its text form; [create_booking] hands it to [ObjectId]). *)
Definition create_document (db : database) (collection_name : string)
    (data : document) : database * string :=
  let '(db', inserted_id) := insert_one db collection_name data in
  (db', str inserted_id).

(** [POST /api/bookings]: the response and the database it leaves. *)
Definition create_booking (db : option database) (payload : BookingRequest)
  : result (option document) * option database :=
  match db with
  | None =>
      (Return (Some (model_dump payload ∪
                     list_to_map [("id", VStr "demo-booking-123");
                                  ("status", VStr "pending")])),
       None)
  | Some d =>
      match ObjectId (car_id payload) with
      | Raise _ => (Raise (HTTPException 400 "Invalid car id"), Some d)
      | Return car_oid =>
          let car := find_one (coll d "car") {["_id" := EqOid car_oid]} in
          if falsy car then (Raise (HTTPException 404 "Car not found"), Some d)
          else
            let data := model_dump payload in
            let '(d', inserted_id) := create_document d "booking" data in
            (oid ← ObjectId inserted_id;
             let doc := find_one (coll d' "booking") {["_id" := EqOid oid]} in
             serialize_doc doc,
             Some d')
      end
  end.

(** [GET /api/bookings] *)
Definition list_bookings (db : option database) (user_id : option string)
    (limit : option Z) : result listing :=
  let limit := default 50 limit in
  if negb (ge_le 1 200 (Some limit)) then Raise RequestValidationError
  else
    match db with
    | None =>
        let demo := demo_bookings in
        Return (Listing (Some <$> slice_to limit demo)
                        (Z.of_nat (length (slice_to limit demo))))
    | Some db =>
        let query := booking_query user_id in
        let cursor :=
          Store.limit limit (cursor_sort "created_at" (-1) (find (coll db "booking") query)) in
        items ← serialize_all cursor;
        Return (Listing items (Z.of_nat (length items)))
    end.

(** [POST /api/seed]: the body and the database it leaves. *)
Definition seed_demo_cars (db : option database) : document * option database :=
  match db with
  | None =>
      (list_to_map [("status", VStr "no-db");
                    ("message", VStr "Database not configured in this environment")],
       None)
  | Some d =>
      if count_documents (coll d "car") ∅ >? 0 then
        (list_to_map [("status", VStr "ok"); ("message", VStr "Cars already exist")],
         Some d)
      else
        let cars := seed_cars in
        (list_to_map [("status", VStr "ok");
                      ("inserted", VInt (Z.of_nat (length cars)))],
         Some (insert_many d "car" cars))
  end.

End Routes.

(* ================================================================== *)
(** ** What no route calls, and the diagnostics route *)
(* ================================================================== *)

(** How [PyObjectId.validate] ends: with the identifier, with the
    [ValueError] it raises itself, or with an exception of the [ObjectId]
    constructor that it does not catch. *)
Inductive validated :=
  | Validated (o : Bson.oid)
  | ValueError (message : string)
  | Escaped (e : exn).

(** [PyObjectId.validate], on a [str]:
<<
    if not ObjectId.is_valid(v):
        raise ValueError("Invalid objectid")
    return ObjectId(v)
>> *)
Definition validate (v : string) : validated :=
  if negb (Bson.is_valid v) then ValueError "Invalid objectid"
  else
    match ObjectId v with
    | Return o => Validated o
    | Raise e => Escaped e
    end.

(** What [/test] reads of the database handle: [db.name] and
    [db.list_collection_names()].  Each returns ([inr]) or raises ([inl]),
    here with the text [str(e)] of the exception. *)
Record handle := Handle {
  name : string + string;
  list_collection_names : string + list string
}.

(** [bool(os.getenv(...))] *)
Definition env_flag (variable : option string) : value :=
  VStr (if truthy variable then "✅ Set" else "❌ Not Set").

(** A byte that continues a character of a UTF-8 text. *)
Definition is_continuation (c : ascii) : bool :=
  let n := N_of_ascii c in ((128 <=? n) && (n <? 192))%N.

(** [s[:n]]: the first [n] characters of a text, that is its bytes up to
    the one that opens character [n + 1]. *)
Fixpoint take_chars (n : nat) (s : string) : string :=
  match s with
  | EmptyString => EmptyString
  | String c s' =>
      if is_continuation c then String c (take_chars n s')
      else
        match n with
        | O => EmptyString
        | S n' => String c (take_chars n' s')
        end
  end.

(** [len(s)]: the characters of a text. *)
Fixpoint char_count (s : string) : nat :=
  match s with
  | EmptyString => O
  | String c s' =>
      if is_continuation c then char_count s' else S (char_count s')
  end.

(** [GET /test].  [DATABASE_URL] and [DATABASE_NAME] are what
    [os.getenv] returns for the two variables.  The outer [try] ends at
    the first exception, which only [db.name] can raise outside the inner
    one. *)
Definition test_database (db : option handle)
    (DATABASE_URL DATABASE_NAME : option string) : document :=
  let response : document :=
    list_to_map [
      ("backend", VStr "✅ Running");
      ("database", VStr "❌ Not Available");
      ("database_url", VNone);
      ("database_name", VNone);
      ("connection_status", VStr "Not Connected");
      ("collections", VList []) ] in
  let response :=
    match db with
    | Some db =>
        let response := <["database" := VStr "✅ Connected & Working"]> response in
        let response := <["database_url" := VStr "✅ Set"]> response in
        match name db with
        | inr db_name =>
            let response := <["database_name" := VStr db_name]> response in
            let response := <["connection_status" := VStr "Connected"]> response in
            match list_collection_names db with
            | inr collections =>
                <["collections" := VList (VStr <$> take 10 collections)]> response
            | inl e =>
                <["database" :=
                    VStr (String.append "⚠️ Connected but Error: " (take_chars 50 e))]>
                  response
            end
        | inl e =>
            <["database" := VStr (String.append "❌ Error: " (take_chars 50 e))]>
              response
        end
    | None => <["database" := VStr "❌ Not Configured"]> response
    end in
  let response := <["database_url" := env_flag DATABASE_URL]> response in
  let response := <["database_name" := env_flag DATABASE_NAME]> response in
  response.

(* ================================================================== *)
(** ** The vocabulary of the statements, and records to run them on *)
(* ================================================================== *)

(** The condition a string filter stands for: none when the parameter is
    absent, none when it is the empty string. *)
Definition filter_of (o : option string) : option cond :=
  match o with
  | Some s => if String.eqb s "" then None else Some (EqStr s)
  | None => None
  end.

(** The condition the two price bounds stand for. *)
Definition price_range (min_price max_price : option Q) : option cond :=
  match min_price, max_price with
  | None, None => None
  | _, _ => Some (Range (Float <$> min_price) (Float <$> max_price))
  end.

Definition car_query_keys : list string :=
  ["type"; "brand"; "transmission"; "fuel_type"; "seats"; "price_per_day"].

(** A record meets "field equals [s]", "field at least [a]", "field at
    most [b]": the field is there and holds such a value, or an array with
    such an element. *)
Definition field_is (item : document) (k s : string) : Prop :=
  ∃ v, item !! k = Some v ∧ VStr s ∈ candidates v.

Definition field_ge (item : document) (k : string) (a : Q) : Prop :=
  ∃ v x q, item !! k = Some v ∧ x ∈ candidates v
           ∧ number_of x = Some q ∧ (a <= q)%Q.

Definition field_le (item : document) (k : string) (b : Q) : Prop :=
  ∃ v x q, item !! k = Some v ∧ x ∈ candidates v
           ∧ number_of x = Some q ∧ (q <= b)%Q.

(** The record carries the identifier [o] in its [_id]. *)
Definition has_id (o : Bson.oid) (d : document) : Prop :=
  ∃ v, d !! "_id" = Some v ∧ VOid o ∈ candidates v.

(** The three bodies of [POST /api/seed]. *)
Definition no_db_body : document :=
  list_to_map [("status", VStr "no-db");
               ("message", VStr "Database not configured in this environment")].

Definition cars_exist_body : document :=
  list_to_map [("status", VStr "ok"); ("message", VStr "Cars already exist")].

Definition inserted_body : document :=
  list_to_map [("status", VStr "ok"); ("inserted", VInt 3)].

(** The database [POST /api/seed] leaves when it starts from nothing. *)
Definition seeded : database := insert_many (Database ∅ 0) "car" seed_cars.

(** A record with its own [id] field, and a record with nothing but its
    identifier. *)
Definition doc_with_id : document :=
  list_to_map [("_id", VOid (Bson.Oid 1)); ("id", VStr "x"); ("owner", VOid (Bson.Oid 2))].

Definition doc_bare : document :=
  list_to_map [("_id", VOid (Bson.Oid 1))].

(** A booking of the first seeded car, and one of a car that is not
    there. *)
Definition booking_1 : BookingRequest := {|
  user_id := "u1";
  car_id := "000000000000000000000000";
  pickup_location := "Downtown";
  dropoff_location := "Airport";
  start_date := "2025-12-01";
  end_date := "2025-12-05";
  total_price := 356;
  notes := None
|}.

Definition booking_unknown : BookingRequest := {|
  user_id := "u1";
  car_id := "0000000000000000000000ff";
  pickup_location := "Downtown";
  dropoff_location := "Airport";
  start_date := "2025-12-01";
  end_date := "2025-12-05";
  total_price := 356;
  notes := None
|}.

(** A request to [GET /api/cars] that meets the constraints of the
    signature. *)
Definition valid_request (seats_gte : option Z) (min_price max_price : option Q)
    (limit : option Z) : Prop :=
  (∀ n, seats_gte = Some n → 1 ≤ n ≤ 9)
  ∧ (∀ a, min_price = Some a → (0 <= a)%Q)
  ∧ (∀ b, max_price = Some b → (0 <= b)%Q)
  ∧ 1 ≤ default 50 limit ≤ 200.

(** Every record of the collection carries an [_id], as the store sees
    to. *)
Definition stored (c : collection) : Prop :=
  ∀ d, d ∈ c → is_Some (d !! "_id").

(** No field of the record holds an identifier. *)
Definition no_raw_id (item : document) : Prop :=
  ∀ k v, item !! k = Some v → is_oid v = false.

(** The record holds identifiers in its fields only, where
    [serialize_doc] looks, not inside the lists and dictionaries of its
    fields; [_id], which is turned into text whatever it holds, and [id],
    which is overwritten, are left aside. *)
Definition flat (d : document) : Prop :=
  ∀ k v, k ≠ "_id" → k ≠ "id" → d !! k = Some v →
         is_oid v = false → has_oid v = false.

(** A field other than [_id] and [id] holds an identifier inside a list
    or a dictionary. *)
Definition nested_id (d : document) : Prop :=
  ∃ k v, k ≠ "_id" ∧ k ≠ "id" ∧ d !! k = Some v
         ∧ is_oid v = false ∧ has_oid v = true.

(** [o'] is the filter [o], or no filter. *)
Definition dropped {A} (o o' : option A) : Prop := o' = None ∨ o' = o.

(** A database with two bookings, of two users. *)
Definition two_bookings : database :=
  insert_many (Database ∅ 0) "booking"
    [model_dump booking_1; <["user_id" := VStr "u2"]> (model_dump booking_1)].

Section Serialized.
Context `{Host}.

(** The record [serialize_doc] makes of a stored one. *)
Definition serialized (d : document) : document :=
  match d !! "_id" with
  | Some v => stringify <$> <["id" := VStr (str v)]> (delete "_id" d)
  | None => d
  end.

(** The cursor [list_cars] serializes: the cars that match, sorted if
    asked for, cut at the limit. *)
Definition car_cursor (db : database)
    (type brand transmission fuel_type : option string)
    (seats_gte : option Z) (min_price max_price : option Q)
    (sort : option string) (limit : option Z) : list document :=
  let found :=
    find (coll db "car")
      (car_query type brand transmission fuel_type seats_gte min_price max_price) in
  Store.limit (default 50 limit)
    (if truthy sort then
       match sort_map !! default "" sort with
       | Some (field, direction) => cursor_sort field direction found
       | None => found
       end
     else found).

End Serialized.

(* ================================================================== *)
(** ** A host to run the routes on *)
(* ================================================================== *)

Module Plain.

(** [str()] of [None], of a Boolean and of an integer. *)
Definition repr (v : value) : string :=
  match v with
  | VNone => "None"
  | VBool true => "True"
  | VBool false => "False"
  | VInt z => pretty z
  | _ => ""
  end.

(** A stable insertion sort on the number a field holds; a record
    without a number there goes first when ascending. *)
Definition key (field : string) (doc : document) : option Q :=
  doc !! field ≫= number_of.

Definition key_le (a b : option Q) : bool :=
  match a, b with
  | None, _ => true
  | Some _, None => false
  | Some x, Some y => Qle_bool x y
  end.

Definition before (field : string) (direction : Z) (a b : document) : bool :=
  if direction =? 1 then key_le (key field a) (key field b)
  else key_le (key field b) (key field a).

Fixpoint place (le : document → document → bool) (d : document)
    (l : list document) : list document :=
  match l with
  | [] => [d]
  | x :: r => if le d x then d :: l else x :: place le d r
  end.

Definition sort (field : string) (direction : Z) (l : list document)
  : list document :=
  foldr (place (before field direction)) [] l.

Lemma place_perm le d l : place le d l ≡ₚ d :: l.
Proof.
  induction l as [|x r IH]; simpl; [done|].
  destruct (le d x); [done|].
  rewrite IH. apply Permutation_swap.
Qed.

Lemma sort_perm field direction l : sort field direction l ≡ₚ l.
Proof.
  unfold sort. induction l as [|x r IH]; simpl; [done|].
  by rewrite place_perm, IH.
Qed.

#[global] Instance host : Host :=
  {| py_repr := repr; cursor_sort := sort; cursor_sort_perm := sort_perm |}.

End Plain.

(* ================================================================== *)
(** ** Identifiers: text form and back *)
(* ================================================================== *)

Lemma digit_val_hex_char d :
  (d < 16)%N → Bson.digit_val (Bson.hex_char d) = Some d.
Proof.
  intros Hd. destruct d as [|p]; [reflexivity|].
  do 4 (destruct p as [p|p|]; try reflexivity); lia.
Qed.

Lemma length_hex_of k n acc :
  String.length (Bson.hex_of k n acc) = (k + String.length acc)%nat.
Proof.
  revert n acc. induction k as [|k IH]; intros n acc; simpl; [done|].
  rewrite IH. simpl. lia.
Qed.

Lemma is_space_hex_char d : (d < 16)%N → Bson.is_space (Bson.hex_char d) = false.
Proof.
  intros Hd. destruct d as [|p]; [reflexivity|].
  do 4 (destruct p as [p|p|]; try reflexivity); lia.
Qed.

Lemma spelled_snoc bytes b :
  Bson.spelled (bytes ++ [b]) = (256 * Bson.spelled bytes + b)%N.
Proof. unfold Bson.spelled. by rewrite foldl_app. Qed.

Lemma length_be_bytes k n : length (Bson.be_bytes k n) = k.
Proof.
  revert n. induction k as [|k IH]; intros n; simpl; [done|].
  rewrite length_app, IH. simpl. lia.
Qed.

Lemma spelled_be_bytes k n :
  Bson.spelled (Bson.be_bytes k n) = (n mod 256 ^ N.of_nat k)%N.
Proof.
  revert n. induction k as [|k IH]; intros n.
  - simpl. by rewrite N.mod_1_r.
  - cbn [Bson.be_bytes]. rewrite spelled_snoc, IH.
    rewrite Nat2N.inj_succ, N.pow_succ_r'.
    rewrite (N.Div0.mod_mul_r n 256 (256 ^ N.of_nat k)). lia.
Qed.

(** [bytes.fromhex] reads what [hex_of] writes. *)
Lemma fromhex_hex_of k n acc :
  Bson.fromhex (Bson.hex_of (k + k) n acc)
  = (λ rest, Bson.be_bytes k n ++ rest) <$> Bson.fromhex acc.
Proof.
  revert n acc. induction k as [|k IH]; intros n acc.
  - simpl. by destruct (Bson.fromhex acc).
  - replace (S k + S k)%nat with (S (S (k + k))) by lia.
    cbn [Bson.hex_of]. rewrite IH. cbn [Bson.fromhex].
    assert (H1 : ((n / 16) mod 16 < 16)%N) by (apply N.mod_lt; lia).
    assert (H0 : (n mod 16 < 16)%N) by (apply N.mod_lt; lia).
    rewrite (is_space_hex_char _ H1), (digit_val_hex_char _ H1),
      (digit_val_hex_char _ H0).
    cbn [Bson.be_bytes]. rewrite N.Div0.div_div. change (16 * 16)%N with 256%N.
    replace (16 * ((n / 16) mod 16) + n mod 16)%N with (n mod 256)%N
      by (change 256%N with (16 * 16)%N; rewrite (N.Div0.mod_mul_r n 16 16); lia).
    destruct (Bson.fromhex acc) as [rest|]; simpl; [|done].
    by rewrite <- app_assoc.
Qed.

(** [ObjectId(str(o))] is [o] again, for the identifiers of twelve
    bytes. *)
Lemma ObjectId_str n :
  (n < 2 ^ 96)%N → ObjectId (Bson.oid_str (Bson.Oid n)) = Return (Bson.Oid n).
Proof.
  intros Hb. unfold ObjectId, Bson.oid_str.
  rewrite length_hex_of. simpl String.length.
  pose proof (fromhex_hex_of 12 n "") as Hf.
  change (12 + 12)%nat with 24%nat in Hf. rewrite Hf. clear Hf.
  cbn [Bson.fromhex fmap option_fmap option_map Nat.add Nat.eqb].
  unfold Bson.of_bytes. rewrite app_nil_r, length_be_bytes. cbn [Nat.eqb].
  rewrite spelled_be_bytes. change (256 ^ N.of_nat 12)%N with (2 ^ 96)%N.
  by rewrite N.mod_small.
Qed.

Lemma oid_eqb_eq a b : Bson.oid_eqb a b = true ↔ a = b.
Proof.
  destruct a as [x|x], b as [y|y]; simpl; try (by split).
  - rewrite N.eqb_eq. split; [by intros ->|by intros [= ->]].
  - rewrite bool_decide_eq_true. split; [by intros ->|by intros [= ->]].
Qed.

(* ================================================================== *)
(** ** The serializer *)
(* ================================================================== *)

Section SerializerFacts.
Context `{Host}.

Lemma is_empty_true (d : document) : is_empty d = true ↔ d = ∅.
Proof.
  unfold is_empty. rewrite <- map_to_list_empty_iff.
  destruct (map_to_list d); naive_solver.
Qed.

Lemma is_empty_false (d : document) : is_empty d = false ↔ d ≠ ∅.
Proof.
  rewrite <- is_empty_true. destruct (is_empty d); naive_solver.
Qed.

(** The loop, run over the items of [m] on a dictionary [d0]. *)
Lemma lookup_stringify_loop (d0 m : document) k :
  map_fold stringify_step d0 m !! k
  = match m !! k with
    | Some v => if is_oid v then Some (VStr (str v)) else d0 !! k
    | None => d0 !! k
    end.
Proof.
  revert k.
  apply (map_fold_weak_ind (λ r m, ∀ k, r !! k = match m !! k with
            | Some v => if is_oid v then Some (VStr (str v)) else d0 !! k
            | None => d0 !! k end)).
  - intros k. by rewrite lookup_empty.
  - intros i x m' r Hi IH k. unfold stringify_step.
    destruct (decide (i = k)) as [->|Hne].
    + rewrite lookup_insert_eq. destruct (is_oid x).
      * by rewrite lookup_insert_eq.
      * rewrite IH, Hi. done.
    + rewrite (lookup_insert_ne m') by done.
      destruct (is_oid x); [rewrite lookup_insert_ne by done|]; apply IH.
Qed.

(** The loop leaves the dictionary with every value stringified. *)
Lemma stringify_loop (d : document) :
  map_fold stringify_step d d = stringify <$> d.
Proof.
  apply map_eq. intros k.
  rewrite lookup_stringify_loop, lookup_fmap. unfold stringify.
  destruct (d !! k) as [v|]; simpl; [|done]. by destruct (is_oid v).
Qed.

Lemma serialize_doc_Some (d : document) v :
  d !! "_id" = Some v →
  serialize_doc (Some d)
  = Return (Some (stringify <$> <["id" := VStr (str v)]> (delete "_id" d))).
Proof.
  intros Hid. unfold serialize_doc.
  assert (is_empty d = false) as ->.
  { apply is_empty_false. intros ->. by rewrite lookup_empty in Hid. }
  rewrite Hid. cbv zeta. by rewrite stringify_loop.
Qed.

(** The three ways [serialize_doc] ends on a dictionary. *)
Lemma serialize_doc_cases (d : document) :
  (d = ∅ ∧ serialize_doc (Some d) = Return (Some d))
  ∨ (d ≠ ∅ ∧ d !! "_id" = None ∧ serialize_doc (Some d) = Raise (KeyError "_id"))
  ∨ (∃ v, d !! "_id" = Some v ∧
       serialize_doc (Some d)
       = Return (Some (stringify <$> <["id" := VStr (str v)]> (delete "_id" d)))).
Proof.
  destruct (d !! "_id") as [v|] eqn:Hid.
  - right. right. exists v. split; [done|]. by apply serialize_doc_Some.
  - destruct (is_empty d) eqn:He.
    + left. apply is_empty_true in He as ->. done.
    + right. left. split; [by apply is_empty_false|]. split; [done|].
      unfold serialize_doc. by rewrite He, Hid.
Qed.

Lemma stringify_not_oid v : is_oid (stringify v) = false.
Proof. unfold stringify. destruct v; done. Qed.

Lemma stringify_idemp v : stringify (stringify v) = stringify v.
Proof. unfold stringify at 1. by rewrite stringify_not_oid. Qed.

(** A field of the serialized record other than [id] and [_id]. *)
Lemma lookup_serialized (d : document) v k :
  k ≠ "id" → k ≠ "_id" →
  (stringify <$> <["id" := VStr (str v)]> (delete "_id" d)) !! k
  = stringify <$> d !! k.
Proof.
  intros Hid H_id.
  by rewrite lookup_fmap, lookup_insert_ne, lookup_delete_ne.
Qed.

End SerializerFacts.

Section SerializerClaims.
Context `{Host}.

(** C2 (amended).  On [None] and on the empty record the serializer returns
    its input.  On a record whose [_id] holds an identifier it returns a
    record where [id] holds the text of that identifier and [_id] is gone;
    of the other fields, apart from a field that was already named [id]
    (the renamed identifier takes its place), one that holds an identifier
    holds its text afterwards, under the same key, every other one is
    unchanged, and no field is added. *)
Theorem serialize_doc_contract (d : document) (o : Bson.oid) :
  serialize_doc None = Return None
  ∧ serialize_doc (Some ∅) = Return (Some ∅)
  ∧ (d !! "_id" = Some (VOid o) →
     ∃ out : document,
       serialize_doc (Some d) = Return (Some out)
       ∧ out !! "id" = Some (VStr (Bson.oid_str o))
       ∧ out !! "_id" = None
       ∧ (∀ k o', k ≠ "id" → k ≠ "_id" → d !! k = Some (VOid o') →
            out !! k = Some (VStr (Bson.oid_str o')))
       ∧ (∀ k v, k ≠ "id" → k ≠ "_id" → is_oid v = false → d !! k = Some v →
            out !! k = Some v)
       ∧ (∀ k, k ≠ "id" → k ≠ "_id" → d !! k = None → out !! k = None)).
Proof.
  split; [done|]. split; [done|]. intros Hid.
  eexists. split; [by apply serialize_doc_Some|].
  split; [by rewrite lookup_fmap, lookup_insert_eq|].
  split; [by rewrite lookup_fmap, lookup_insert_ne, lookup_delete_eq|].
  split; [|split].
  - intros k o' ? ? Hk. by rewrite lookup_serialized, Hk.
  - intros k v ? ? Hv Hk. rewrite lookup_serialized, Hk by done.
    simpl. unfold stringify. by rewrite Hv.
  - intros k ? ? Hk. by rewrite lookup_serialized, Hk.
Qed.

(** C3 (amended).  Where the serializer succeeds on [None] or on the empty
    record, it returns its input, and does so again on that output.  Where
    it succeeds on a record that is not empty, the output holds no
    identifier any more (stringifying its values again changes nothing),
    but it holds no [_id] either: the serializer applied to its own output
    raises [KeyError]. *)
Theorem serialize_doc_twice (doc out : option document) :
  serialize_doc doc = Return out →
  (doc = None ∨ doc = Some ∅ → out = doc ∧ serialize_doc out = Return out)
  ∧ (∀ d : document, doc = Some d → d ≠ ∅ →
       ∃ o : document,
         out = Some o
         ∧ stringify <$> o = o
         ∧ o !! "_id" = None
         ∧ serialize_doc out = Raise (KeyError "_id")).
Proof.
  intros Hret. split.
  - intros [->| ->]; simpl in Hret; injection Hret as <-; done.
  - intros d -> Hne.
    destruct (serialize_doc_cases d) as [[? _]|[(_ & _ & Hr)|(v & Hid & Hr)]];
      [done|congruence|].
    rewrite Hr in Hret. injection Hret as <-.
    eexists. split; [done|].
    assert (Hno : (stringify <$> <["id" := VStr (str v)]> (delete "_id" d)) !! "_id"
                  = None)
      by (by rewrite lookup_fmap, lookup_insert_ne, lookup_delete_eq).
    split; [|split; [done|]].
    + rewrite <- map_fmap_compose. apply map_fmap_ext.
      intros k x _. apply stringify_idemp.
    + unfold serialize_doc.
      assert (is_empty (stringify <$> <["id" := VStr (str v)]> (delete "_id" d)) = false)
        as ->.
      { apply is_empty_false. intros He.
        apply (f_equal (λ m : document, m !! "id")) in He.
        by rewrite lookup_fmap, lookup_insert_eq, lookup_empty in He. }
      by rewrite Hno.
Qed.

End SerializerClaims.

Lemma serialize_doc_contract_witness :
  doc_with_id !! "_id" = Some (VOid (Bson.Oid 1))
  ∧ ∃ out : document,
      serialize_doc (Some doc_with_id) = Return (Some out)
      ∧ out !! "id" = Some (VStr "000000000000000000000001")
      ∧ out !! "owner" = Some (VStr "000000000000000000000002").
Proof.
  split; [reflexivity|].
  destruct (serialize_doc_contract doc_with_id (Bson.Oid 1))
    as (_ & _ & Hc).
  destruct (Hc eq_refl) as (out & Hs & Hid & _ & Hoid & _).
  exists out. split; [exact Hs|]. split; [exact Hid|].
  apply (Hoid "owner" (Bson.Oid 2)); [discriminate|discriminate|reflexivity].
Defined.

(** C2, as stated, fails on a record that has a field named [id]: that
    field is not an identifier, and it does not come out unchanged. *)
Lemma serialize_doc_overwrites_id :
  ∃ out : document,
    serialize_doc (Some doc_with_id) = Return (Some out)
    ∧ doc_with_id !! "_id" = Some (VOid (Bson.Oid 1))
    ∧ doc_with_id !! "id" = Some (VStr "x")
    ∧ out !! "id" ≠ Some (VStr "x").
Proof.
  eexists. split; [by apply (serialize_doc_Some _ (VOid (Bson.Oid 1)))|].
  split; [reflexivity|]. split; [reflexivity|].
  rewrite lookup_fmap, lookup_insert_eq. discriminate.
Qed.

Lemma serialize_doc_twice_witness :
  serialize_doc (Some doc_bare)
    = Return (Some (list_to_map [("id", VStr "000000000000000000000001")]))
  ∧ serialize_doc (Some (list_to_map [("id", VStr "000000000000000000000001")]))
    = Raise (KeyError "_id").
Proof.
  assert (Hs : serialize_doc (Some doc_bare)
    = Return (Some (list_to_map [("id", VStr "000000000000000000000001")])))
    by (vm_compute; reflexivity).
  split; [exact Hs|].
  destruct (serialize_doc_twice _ _ Hs) as [_ Hd].
  destruct (Hd doc_bare eq_refl) as (o & Ho & _ & _ & Hr).
  - intros He. apply (f_equal (λ m : document, m !! "_id")) in He. discriminate He.
  - exact Hr.
Defined.

(** C3, as stated, fails on every record the serializer changes: here the
    second application raises. *)
Lemma serialize_doc_not_idempotent :
  ∃ out : option document,
    serialize_doc (Some doc_bare) = Return out
    ∧ serialize_doc out ≠ Return out.
Proof.
  exists (Some (list_to_map [("id", VStr "000000000000000000000001")])).
  split; [vm_compute; reflexivity|]. vm_compute. discriminate.
Qed.

(* ================================================================== *)
(** ** The query builder *)
(* ================================================================== *)

Lemma lookup_set_if key o (q : query) k :
  set_if key o q !! k
  = if decide (key = k) then from_option Some (q !! k) (filter_of o) else q !! k.
Proof.
  unfold set_if, truthy, filter_of.
  destruct o as [s|]; simpl; [destruct (String.eqb s ""); simpl|];
    case_decide; simplify_map_eq; done.
Qed.

Lemma lookup_car_query type brand transmission fuel_type seats_gte min_price max_price k :
  car_query type brand transmission fuel_type seats_gte min_price max_price !! k
  = if decide (k = "price_per_day") then price_range min_price max_price
    else if decide (k = "seats") then (λ n, Range (Some (Int n)) None) <$> seats_gte
    else if decide (k = "fuel_type") then filter_of fuel_type
    else if decide (k = "transmission") then filter_of transmission
    else if decide (k = "brand") then filter_of brand
    else if decide (k = "type") then filter_of type
    else None.
Proof.
  unfold car_query, price_range. cbv zeta.
  destruct min_price, max_price, seats_gte; simpl;
    repeat case_decide; subst;
    repeat (rewrite lookup_insert_eq || rewrite lookup_insert_ne by done);
    rewrite ?lookup_set_if; repeat case_decide; try done;
    rewrite ?lookup_empty; by repeat destruct (filter_of _).
Qed.

Lemma matches_spec (q : query) (doc : document) :
  matches q doc = true ↔ ∀ k c, q !! k = Some c → test c (doc !! k) = true.
Proof.
  unfold matches. rewrite forallb_forall. split.
  - intros Hall k c Hk. apply (Hall (k, c)).
    apply list_elem_of_In. by apply elem_of_map_to_list.
  - intros Hall [k c] Hin. apply list_elem_of_In in Hin.
    apply elem_of_map_to_list in Hin. by apply Hall.
Qed.

(** C4 (amended).  The query [list_cars] builds holds, for each string
    filter that is given and is not the empty string, the equality with
    that string; for [seats_gte], when given, the lower bound on [seats];
    for the prices, when at least one is given, one range on
    [price_per_day] with [$gte] exactly when [min_price] is given and [$lte]
    exactly when [max_price] is given; and nothing else: a filter that is
    absent, or a string filter that is empty, leaves no condition behind.
    A record matches the query when it meets every condition in it. *)
Theorem car_query_contract type brand transmission fuel_type
    (seats_gte : option Z) (min_price max_price : option Q) :
  let q := car_query type brand transmission fuel_type seats_gte min_price max_price in
  q !! "type" = filter_of type
  ∧ q !! "brand" = filter_of brand
  ∧ q !! "transmission" = filter_of transmission
  ∧ q !! "fuel_type" = filter_of fuel_type
  ∧ q !! "seats" = (λ n, Range (Some (Int n)) None) <$> seats_gte
  ∧ q !! "price_per_day" = price_range min_price max_price
  ∧ (∀ k, k ∉ car_query_keys → q !! k = None)
  ∧ (∀ doc, matches q doc = true ↔
            ∀ k c, q !! k = Some c → test c (doc !! k) = true).
Proof.
  cbv zeta. repeat split; try (by rewrite lookup_car_query);
    try (by apply matches_spec).
  intros k Hk. rewrite lookup_car_query.
  unfold car_query_keys in Hk. rewrite !not_elem_of_cons in Hk.
  destruct Hk as (? & ? & ? & ? & ? & ? & _).
  by repeat case_decide.
Qed.

(** C4, as stated, fails for a string filter that is given as the empty
    string: the query holds no condition for it. *)
Lemma car_query_drops_empty_string :
  car_query (Some "") None None None None None None = ∅
  ∧ car_query (Some "") None None None None None None !! "type" ≠ Some (EqStr "").
Proof. split; [reflexivity|discriminate]. Qed.

(* ================================================================== *)
(** ** The store: what [find], [limit] and the serialized cursor give *)
(* ================================================================== *)

Lemma elem_of_find (c : collection) (q : query) (d : document) :
  d ∈ find c q ↔ d ∈ c ∧ matches q d = true.
Proof. unfold find. by rewrite !list_elem_of_In, filter_In. Qed.

Lemma matches_empty (d : document) : matches ∅ d = true.
Proof. apply matches_spec. intros k c Hk. by rewrite lookup_empty in Hk. Qed.

Lemma find_all (c : collection) : find c ∅ = c.
Proof.
  unfold find. induction c as [|d c IH]; simpl; [done|].
  by rewrite matches_empty, IH.
Qed.

Lemma find_one_None (c : collection) (q : query) :
  (∀ d, d ∈ c → matches q d = false) → find_one c q = None.
Proof.
  intros Hno. unfold find_one.
  destruct (find c q) as [|d l] eqn:Hf; [done|].
  assert (Hd : d ∈ find c q) by (rewrite Hf; left).
  apply elem_of_find in Hd as [Hd Hm]. by rewrite (Hno d Hd) in Hm.
Qed.

Lemma elem_of_limit n (l : list document) d : d ∈ Store.limit n l → d ∈ l.
Proof.
  unfold Store.limit. destruct (n =? 0); [done|].
  apply subseteq_take.
Qed.

Lemma length_limit n (l : list document) :
  1 ≤ n → Z.of_nat (length (Store.limit n l)) ≤ n.
Proof.
  intros Hn. unfold Store.limit.
  destruct (Z.eqb_spec n 0) as [->|_]; [lia|].
  rewrite length_take. lia.
Qed.

Lemma length_slice_to {A} n (l : list A) :
  0 ≤ n → Z.of_nat (length (slice_to n l)) ≤ n.
Proof.
  intros Hn. unfold slice_to.
  destruct (Z.ltb_spec n 0); [lia|]. rewrite length_take. lia.
Qed.

Section CursorFacts.
Context `{Host}.

Lemma serialize_all_Forall2 cursor items :
  serialize_all cursor = Return items →
  Forall2 (λ d i, serialize_doc (Some d) = Return i) cursor items.
Proof.
  revert items. induction cursor as [|d c IH]; intros items; cbn [serialize_all].
  - intros [= <-]. constructor.
  - unfold mbind, result_bind.
    destruct (serialize_doc (Some d)) as [i|e] eqn:Hd; [|done].
    destruct (serialize_all c) as [rest|e] eqn:Hc; [|done].
    intros [= <-]. constructor; [done|]. by apply IH.
Qed.

Lemma serialize_all_length cursor items :
  serialize_all cursor = Return items → length items = length cursor.
Proof.
  intros Hs. symmetry. eapply Forall2_length, serialize_all_Forall2, Hs.
Qed.

Lemma serialize_all_elem cursor items i :
  serialize_all cursor = Return items → i ∈ items →
  ∃ d, d ∈ cursor ∧ serialize_doc (Some d) = Return i.
Proof.
  intros Hs Hi. apply serialize_all_Forall2 in Hs.
  apply list_elem_of_lookup in Hi as [n Hn].
  destruct (Forall2_lookup_r _ _ _ _ _ Hs Hn) as (d & Hd & Hr).
  exists d. split; [|done]. by eapply list_elem_of_lookup_2.
Qed.

(** The request did not pass validation. *)
Ltac rejected := split; [intros ? [=]|intros _; split; reflexivity].

(** C5 (amended).  Whatever [GET /api/cars] returns, [count] is the number
    of items and does not exceed the requested [limit] (50 when none is
    given); and a request whose [limit] lies outside [1, 200] does not reach
    the route body: FastAPI rejects it with status 422. *)
Theorem list_cars_limit (db : option database)
    type brand transmission fuel_type seats_gte min_price max_price sort
    (limit : option Z) :
  let r := list_cars db type brand transmission fuel_type seats_gte
             min_price max_price sort limit in
  (∀ body, r = Return body →
     count body = Z.of_nat (length (items body)) ∧ count body ≤ default 50 limit)
  ∧ (default 50 limit < 1 ∨ 200 < default 50 limit →
     r = Raise RequestValidationError ∧ status r = 422).
Proof.
  cbv zeta. unfold list_cars. cbv zeta.
  destruct (ge_le 1 9 seats_gte && ge_0 min_price && ge_0 max_price);
    cbn [andb negb]; [|rejected].
  unfold ge_le. cbn [from_option].
  destruct (Z.leb_spec 1 (default 50 limit)) as [Hlo|Hlo];
    cbn [andb negb]; [|rejected].
  destruct (Z.leb_spec (default 50 limit) 200) as [Hhi|Hhi];
    cbn [andb negb]; [|rejected].
  split; [|lia]. intros body. destruct db as [d|].
  - unfold mbind, result_bind.
    destruct (serialize_all _) as [its|e] eqn:Hs; [|done].
    intros [= <-]. cbn [count items]. split; [done|].
    rewrite (serialize_all_length _ _ Hs). apply length_limit. lia.
  - intros [= <-]. cbn [count items]. rewrite length_fmap. split; [done|].
    apply length_slice_to. lia.
Qed.

(** C10.  An empty string for [type], [brand], [transmission], [fuel_type]
    or for the [user_id] of [GET /api/bookings] puts no condition in the
    query, and the route answers as it does when the parameter is absent. *)
Theorem empty_string_is_absent (db : option database)
    type brand transmission fuel_type seats_gte min_price max_price sort
    (limit : option Z) :
  car_query (Some "") brand transmission fuel_type seats_gte min_price max_price
    !! "type" = None
  ∧ car_query type (Some "") transmission fuel_type seats_gte min_price max_price
    !! "brand" = None
  ∧ car_query type brand (Some "") fuel_type seats_gte min_price max_price
    !! "transmission" = None
  ∧ car_query type brand transmission (Some "") seats_gte min_price max_price
    !! "fuel_type" = None
  ∧ booking_query (Some "") = ∅
  ∧ list_cars db (Some "") brand transmission fuel_type seats_gte min_price max_price sort limit
    = list_cars db None brand transmission fuel_type seats_gte min_price max_price sort limit
  ∧ list_cars db type (Some "") transmission fuel_type seats_gte min_price max_price sort limit
    = list_cars db type None transmission fuel_type seats_gte min_price max_price sort limit
  ∧ list_cars db type brand (Some "") fuel_type seats_gte min_price max_price sort limit
    = list_cars db type brand None fuel_type seats_gte min_price max_price sort limit
  ∧ list_cars db type brand transmission (Some "") seats_gte min_price max_price sort limit
    = list_cars db type brand transmission None seats_gte min_price max_price sort limit
  ∧ list_bookings db (Some "") limit = list_bookings db None limit.
Proof.
  repeat split; try reflexivity; by rewrite lookup_car_query.
Qed.

End CursorFacts.

(** C5, as stated, fails on the status: a [limit] of 0 is rejected with
    422, not 400. *)
Lemma list_cars_limit_0_not_400 :
  status (list_cars None None None None None None None None None (Some 0)) ≠ 400.
Proof. vm_compute. discriminate. Qed.

Lemma list_cars_limit_witness :
  (default 50 (Some 201) < 1 ∨ 200 < default 50 (Some 201))
  ∧ status (list_cars None None None None None None None None None (Some 201)) = 422
  ∧ ∀ body,
      list_cars None None None None None None None None None (Some 1) = Return body →
      count body ≤ 1.
Proof.
  split; [right; reflexivity|]. split.
  - apply (list_cars_limit None None None None None None None None None (Some 201)).
    right. reflexivity.
  - intros body Hb.
    apply (list_cars_limit None None None None None None None None None (Some 1)
             ) in Hb.
    exact (proj2 Hb).
Defined.

(* ================================================================== *)
(** ** What the listed cars satisfy *)
(* ================================================================== *)

Lemma test_EqStr s (item : document) k :
  test (EqStr s) (item !! k) = true → field_is item k s.
Proof.
  unfold test, field_is. destruct (item !! k) as [v|]; simpl; [|done].
  intros (x & Hx & Hs)%existsb_exists. exists v. split; [done|].
  destruct x; simpl in Hs; try done.
  apply String.eqb_eq in Hs as ->. by apply list_elem_of_In.
Qed.

Lemma test_Range_ge a hi (item : document) k :
  test (Range (Some a) hi) (item !! k) = true → field_ge item k (to_Q a).
Proof.
  unfold test, field_ge. destruct (item !! k) as [v|]; simpl; [|done].
  intros [(x & Hx & Hge)%existsb_exists _]%andb_true_iff.
  unfold is_ge in Hge. destruct (number_of x) as [q|] eqn:Hq; [|done].
  exists v, x, q. split; [done|]. split; [by apply list_elem_of_In|].
  split; [done|]. by apply Qle_bool_iff.
Qed.

Lemma test_Range_le lo b (item : document) k :
  test (Range lo (Some b)) (item !! k) = true → field_le item k (to_Q b).
Proof.
  unfold test, field_le. destruct (item !! k) as [v|]; simpl; [|done].
  intros Hh.
  assert (Hle : existsb (is_le b) (candidates v) = true).
  { destruct lo; simpl in Hh; [by apply andb_true_iff in Hh as [_ ?]|done]. }
  apply existsb_exists in Hle as (x & Hx & Hle).
  unfold is_le in Hle. destruct (number_of x) as [q|] eqn:Hq; [|done].
  exists v, x, q. split; [done|]. split; [by apply list_elem_of_In|].
  split; [done|]. by apply Qle_bool_iff.
Qed.

(** The conditions [car_query] builds sit on none of the two fields the
    serializer touches, and none asks for an identifier. *)
Lemma car_query_cond type brand transmission fuel_type seats_gte min_price max_price k c :
  car_query type brand transmission fuel_type seats_gte min_price max_price !! k
    = Some c →
  k ≠ "id" ∧ k ≠ "_id" ∧ ∀ o, c ≠ EqOid o.
Proof.
  rewrite lookup_car_query. unfold price_range, filter_of.
  repeat case_decide; subst; intros Hc;
    (split; [done|]); (split; [done|]); intros o ->;
    repeat match goal with
    | H : context [match ?x with _ => _ end] |- _ => destruct x; simpl in H
    | H : context [if ?x then _ else _] |- _ => destruct x; simpl in H
    | H : _ <$> ?x = Some _ |- _ => destruct x; simpl in H
    end; done.
Qed.

Section ListCars.
Context `{Host}.

(** A condition that does not ask for an identifier is blind to what
    the serializer does to a value. *)
Lemma holds_stringify c v :
  (∀ o, c ≠ EqOid o) → holds c v = true → holds c (stringify v) = true.
Proof.
  intros Hc. destruct v; try done.
  destruct c as [s|o'|[a|] [b|]]; try done. by destruct (Hc o').
Qed.

Lemma test_stringify c (f : option value) :
  (∀ o, c ≠ EqOid o) → test c f = true → test c (stringify <$> f) = true.
Proof. destruct f; simpl; [apply holds_stringify|done]. Qed.

(** A car of the store that matches the query still does once it is
    serialized. *)
Lemma matches_serialized type brand transmission fuel_type seats_gte min_price max_price
    (d : document) x :
  let q := car_query type brand transmission fuel_type seats_gte min_price max_price in
  matches q d = true → serialize_doc (Some d) = Return x →
  ∃ item : document, x = Some item ∧ matches q item = true.
Proof.
  cbv zeta. intros Hm Hs.
  destruct (serialize_doc_cases d) as [[-> Hr]|[(_ & _ & Hr)|(v & Hid & Hr)]];
    rewrite Hr in Hs; [| done |]; injection Hs as <-; eexists; (split; [done|]);
    [done|].
  apply matches_spec. intros k c Hk.
  destruct (car_query_cond _ _ _ _ _ _ _ _ _ Hk) as (? & ? & Hc).
  rewrite lookup_serialized by done. apply test_stringify; [done|].
  by apply (proj1 (matches_spec _ _) Hm).
Qed.

(** With a database, every item of the answer is a car of the store
    that matches the query, serialized. *)
Lemma list_cars_items (db : database)
    type brand transmission fuel_type seats_gte min_price max_price sort limit
    body x :
  list_cars (Some db) type brand transmission fuel_type seats_gte
    min_price max_price sort limit = Return body →
  x ∈ items body →
  ∃ d : document,
    d ∈ coll db "car"
    ∧ matches (car_query type brand transmission fuel_type seats_gte
                 min_price max_price) d = true
    ∧ serialize_doc (Some d) = Return x.
Proof.
  unfold list_cars. cbv zeta.
  destruct (negb _); [done|]. unfold mbind, result_bind.
  destruct (serialize_all _) as [its|e] eqn:Hs; [|done].
  intros [= <-]. cbn [items]. intros Hx.
  destruct (serialize_all_elem _ _ _ Hs Hx) as (d & Hd & Hr).
  exists d. apply elem_of_limit in Hd.
  assert (Hfind : d ∈ find (coll db "car")
            (car_query type brand transmission fuel_type seats_gte min_price max_price)).
  { destruct (truthy sort); [|done].
    destruct (sort_map !! default "" sort) as [[field direction]|]; [|done].
    by rewrite cursor_sort_perm in Hd. }
  apply elem_of_find in Hfind as [? ?]. done.
Qed.

End ListCars.

Section ListCarsClaim.
Context `{Host}.

(** C1 (amended).  With a database configured, every item [GET /api/cars]
    returns is a serialized car that meets every condition of the query:
    for each string filter given and not empty the field equals it, for
    [seats_gte] the seats are at least that many, for [min_price] and
    [max_price] the price per day is at least, at most, that much; as the
    store reads a condition, a field that holds an array meets it through
    an element.  In particular, when both prices are given and the
    item's [price_per_day] is a number, it lies within
    [[min_price, max_price]]. *)
Theorem list_cars_filters (db : database)
    type brand transmission fuel_type seats_gte min_price max_price sort limit
    body x :
  list_cars (Some db) type brand transmission fuel_type seats_gte
    min_price max_price sort limit = Return body →
  x ∈ items body →
  ∃ item : document,
    x = Some item
    ∧ (∀ s, type = Some s → s ≠ "" → field_is item "type" s)
    ∧ (∀ s, brand = Some s → s ≠ "" → field_is item "brand" s)
    ∧ (∀ s, transmission = Some s → s ≠ "" → field_is item "transmission" s)
    ∧ (∀ s, fuel_type = Some s → s ≠ "" → field_is item "fuel_type" s)
    ∧ (∀ n, seats_gte = Some n → field_ge item "seats" (inject_Z n))
    ∧ (∀ a, min_price = Some a → field_ge item "price_per_day" a)
    ∧ (∀ b, max_price = Some b → field_le item "price_per_day" b)
    ∧ (∀ a b p, min_price = Some a → max_price = Some b →
         item !! "price_per_day" ≫= number_of = Some p →
         (a <= p)%Q ∧ (p <= b)%Q).
Proof.
  intros Hbody Hx.
  destruct (list_cars_items _ _ _ _ _ _ _ _ _ _ _ _ Hbody Hx) as (d & _ & Hm & Hs).
  destruct (matches_serialized _ _ _ _ _ _ _ _ _ Hm Hs) as (item & -> & Hitem).
  exists item. split; [done|].
  pose proof (proj1 (matches_spec _ _) Hitem) as Hall.
  assert (Hstr : ∀ k o s, car_query type brand transmission fuel_type seats_gte
                            min_price max_price !! k = filter_of o →
                          o = Some s → s ≠ "" → field_is item k s).
  { intros k o s Hk -> Hne. apply test_EqStr, Hall. rewrite Hk. simpl.
    destruct (String.eqb_spec s ""); done. }
  assert (Hge : ∀ a, min_price = Some a → field_ge item "price_per_day" a).
  { intros a ->. apply (test_Range_ge (Float a) (Float <$> max_price)), Hall.
    by rewrite lookup_car_query. }
  assert (Hle : ∀ b, max_price = Some b → field_le item "price_per_day" b).
  { intros b ->. apply (test_Range_le (Float <$> min_price) (Float b)), Hall.
    rewrite lookup_car_query. by destruct min_price. }
  split_and!; try done.
  - intros s. by apply Hstr; rewrite lookup_car_query.
  - intros s. by apply Hstr; rewrite lookup_car_query.
  - intros s. by apply Hstr; rewrite lookup_car_query.
  - intros s. by apply Hstr; rewrite lookup_car_query.
  - intros n ->. apply (test_Range_ge (Int n) None), Hall.
    by rewrite lookup_car_query.
  - intros a b p Ha Hb Hp.
    destruct (Hge a Ha) as (v & y & q & Hv & Hy & Hq & Hqa).
    destruct (Hle b Hb) as (v' & y' & q' & Hv' & Hy' & Hq' & Hqb).
    rewrite Hv in Hp, Hv'. injection Hv' as <-. simpl in Hp.
    destruct v; try done; apply list_elem_of_singleton in Hy as ->;
      apply list_elem_of_singleton in Hy' as ->; simpl in *;
      split; congruence.
Qed.

End ListCarsClaim.

(** C1, as stated, fails when no database is configured: the fixed demo
    cars come back whatever the filters. *)
Lemma list_cars_demo_unfiltered :
  ∃ body item,
    list_cars None (Some "suv") None None None None (Some 100%Q) (Some 200%Q) None None
      = Return body
    ∧ Some item ∈ items body
    ∧ item !! "type" = Some (VStr "sedan")
    ∧ item !! "price_per_day" = Some (VInt 89).
Proof.
  eexists _, _. split; [vm_compute; reflexivity|].
  split; [left|]. split; vm_compute; reflexivity.
Qed.

Lemma list_cars_filters_witness :
  ∃ body,
    list_cars (Some seeded) (Some "sedan") None None None None
      (Some 50%Q) (Some 100%Q) (Some "price_asc") None = Return body
    ∧ count body = 1
    ∧ ∀ x, x ∈ items body →
        ∃ item : document,
          x = Some item
          ∧ field_is item "type" "sedan"
          ∧ field_ge item "price_per_day" 50
          ∧ field_le item "price_per_day" 100.
Proof.
  destruct (list_cars (Some seeded) (Some "sedan") None None None None
              (Some 50%Q) (Some 100%Q) (Some "price_asc") None)
    as [body|e] eqn:Hbody; [|vm_compute in Hbody; discriminate Hbody].
  exists body. split; [reflexivity|]. split.
  - vm_compute in Hbody. injection Hbody as <-. reflexivity.
  - intros x Hx.
    destruct (list_cars_filters seeded _ _ _ _ _ _ _ _ _ _ _ Hbody Hx)
      as (item & Hitem & Htype & _ & _ & _ & _ & Hge & Hle & _).
    exists item. split; [exact Hitem|]. split; [|split].
    + apply (Htype "sedan"); [reflexivity|discriminate].
    + apply Hge. reflexivity.
    + apply Hle. reflexivity.
Defined.

(* ================================================================== *)
(** ** Looking a car up by its identifier *)
(* ================================================================== *)

Lemma is_valid_ObjectId s :
  Bson.is_valid s = true ↔ ∃ o, ObjectId s = Return o.
Proof.
  unfold Bson.is_valid, ObjectId.
  destruct (String.length s =? 24)%nat; simpl; [|split; [done|by intros [? ?]]].
  rewrite bool_decide_eq_true.
  destruct (Bson.fromhex s) as [n|].
  - split; [by eexists|by eexists].
  - split; [by intros [? ?]|by intros [? ?]].
Qed.

Lemma not_valid_ObjectId s :
  Bson.is_valid s = false → ObjectId s = Raise (InvalidId s).
Proof.
  intros Hv. destruct (ObjectId s) as [o|e] eqn:Ho.
  - assert (Bson.is_valid s = true) by (apply is_valid_ObjectId; by exists o).
    congruence.
  - unfold ObjectId in Ho.
    destruct (String.length s =? 24)%nat; [destruct (Bson.fromhex s)|];
      congruence.
Qed.

Lemma matches_id o (d : document) :
  matches {["_id" := EqOid o]} d = true ↔ has_id o d.
Proof.
  rewrite matches_spec. unfold has_id. split.
  - intros Hall. specialize (Hall "_id" (EqOid o) (lookup_singleton_eq _ _)).
    unfold test in Hall. destruct (d !! "_id") as [v|]; simpl in Hall; [|done].
    exists v. split; [done|].
    apply existsb_exists in Hall as (x & Hx & Hid).
    destruct x; simpl in Hid; try done.
    apply oid_eqb_eq in Hid as ->. by apply list_elem_of_In.
  - intros (v & Hv & Hin) k c [<- <-]%lookup_singleton_Some.
    rewrite Hv. simpl. apply existsb_exists. exists (VOid o).
    split; [by apply list_elem_of_In|]. simpl. by apply oid_eqb_eq.
Qed.

Lemma find_one_unknown (c : collection) o :
  (∀ d, d ∈ c → ¬ has_id o d) → find_one c {["_id" := EqOid o]} = None.
Proof.
  intros Hno. apply find_one_None. intros d Hd.
  apply not_true_is_false. rewrite matches_id. by apply Hno.
Qed.

Section Lookup.
Context `{Host}.



End Lookup.

(** No seeded car carries an identifier other than 0, 1 and 2. *)
Lemma seeded_no_other o d :
  o ∉ [Bson.Oid 0; Bson.Oid 1; Bson.Oid 2] →
  d ∈ coll seeded "car" → ¬ has_id o d.
Proof.
  intros Ho Hd (v & Hv & Hin).
  change (coll seeded "car") with
    [ <["_id" := VOid (Bson.Oid 0)]> (list_to_map tesla_model_3 : document);
      <["_id" := VOid (Bson.Oid 1)]> (list_to_map bmw_x5 : document);
      <["_id" := VOid (Bson.Oid 2)]> (list_to_map toyota_corolla : document) ] in Hd.
  repeat (apply elem_of_cons in Hd as [->|Hd];
          [rewrite lookup_insert_eq in Hv; injection Hv as <-;
           apply list_elem_of_singleton in Hin; injection Hin as ->;
           apply Ho; set_solver|]).
  exact (not_elem_of_nil d Hd).
Qed.

Lemma seeded_no_255 d : d ∈ coll seeded "car" → ¬ has_id (Bson.Oid 255) d.
Proof.
  apply seeded_no_other. intros Hin.
  repeat (apply elem_of_cons in Hin as [Hin|Hin]; [discriminate Hin|]).
  exact (not_elem_of_nil _ Hin).
Qed.

(** The eleven bytes that ["00000000000000000000ff  "] spells: the white
    space at its end is skipped. *)
Lemma seeded_no_spaced d :
  d ∈ coll seeded "car" →
  ¬ has_id (Bson.Short [0; 0; 0; 0; 0; 0; 0; 0; 0; 0; 255]%N) d.
Proof.
  apply seeded_no_other. intros Hin.
  repeat (apply elem_of_cons in Hin as [Hin|Hin]; [discriminate Hin|]).
  exact (not_elem_of_nil _ Hin).
Qed.





(* ================================================================== *)
(** ** Inserting: bookings and the seed *)
(* ================================================================== *)

Lemma coll_insert (db : database) name (l : collection) n :
  coll (Database (<[name := l]> (collections db)) n) name = l.
Proof. unfold coll. simpl. by rewrite lookup_insert_eq. Qed.

Lemma coll_insert_ne (db : database) name name' (l : collection) n :
  name ≠ name' →
  coll (Database (<[name := l]> (collections db)) n) name' = coll db name'.
Proof. intros. unfold coll. simpl. by rewrite lookup_insert_ne. Qed.

(** [insert_one] on a record that brings no [_id]. *)
Lemma insert_one_new (db : database) name (doc : document) :
  doc !! "_id" = None →
  insert_one db name doc
  = (Database (<[name := coll db name ++ [<["_id" := VOid (Bson.Oid (next_oid db))]> doc]]>
                 (collections db))
              (N.succ (next_oid db)),
     VOid (Bson.Oid (next_oid db))).
Proof. intros Hno. unfold insert_one. by rewrite Hno. Qed.

Lemma model_dump_no_id (p : BookingRequest) :
  model_dump p !! "_id" = None ∧ model_dump p !! "id" = None
  ∧ model_dump p !! "status" = None.
Proof. by vm_compute. Qed.

Lemma model_dump_no_oid (p : BookingRequest) k v :
  model_dump p !! k = Some v → is_oid v = false.
Proof.
  unfold model_dump. intros Hk.
  apply elem_of_list_to_map_2 in Hk.
  repeat (apply elem_of_cons in Hk as [[= -> ->]|Hk]; [by try destruct (notes p)|]).
  by apply elem_of_nil in Hk.
Qed.

(** [find_one] by the identifier of the record just appended, when no
    record before it carries that identifier. *)
Lemma find_one_appended (c : collection) (doc : document) o :
  (∀ d, d ∈ c → ¬ has_id o d) →
  find_one (c ++ [<["_id" := VOid o]> doc]) {["_id" := EqOid o]}
  = Some (<["_id" := VOid o]> doc).
Proof.
  intros Hno. unfold find_one, find. rewrite List.filter_app.
  assert (List.filter (matches {["_id" := EqOid o]}) c = []) as ->.
  { induction c as [|d c IH]; simpl; [done|].
    assert (matches {["_id" := EqOid o]} d = false) as ->.
    { apply not_true_is_false. rewrite matches_id. apply Hno. left. }
    apply IH. intros d' Hd'. apply Hno. by right. }
  simpl.
  assert (matches {["_id" := EqOid o]} (<["_id" := VOid o]> doc) = true) as ->; [|done].
  apply matches_id. exists (VOid o). rewrite lookup_insert_eq.
  split; [done|]. simpl. left.
Qed.

Section Bookings.
Context `{Host}.

(** What [POST /api/bookings] answers when the car is there: the
    submitted fields and the new identifier, and nothing else. *)
Lemma create_booking_created (db : database) (payload : BookingRequest) o car :
  ObjectId (car_id payload) = Return o →
  find_one (coll db "car") {["_id" := EqOid o]} = Some car →
  (next_oid db < 2 ^ 96)%N →
  (∀ d, d ∈ coll db "booking" → ¬ has_id (Bson.Oid (next_oid db)) d) →
  ∃ db',
    create_booking (Some db) payload
    = (Return (Some (<["id" := VStr (Bson.oid_str (Bson.Oid (next_oid db)))]>
                       (model_dump payload))),
       Some db')
    ∧ coll db' "booking"
      = coll db "booking"
        ++ [<["_id" := VOid (Bson.Oid (next_oid db))]> (model_dump payload)]
    ∧ coll db' "car" = coll db "car".
Proof.
  intros Ho Hcar Hbound Hfresh.
  assert (Hc : car ∈ find (coll db "car") {["_id" := EqOid o]}).
  { unfold find_one in Hcar. destruct (find _ _); [done|].
    injection Hcar as ->. left. }
  apply elem_of_find in Hc as [_ Hid%matches_id].
  assert (falsy (Some car) = false) as Hfalsy.
  { destruct Hid as (v & Hv & _). unfold falsy.
    destruct (map_to_list car) eqn:Hl; [|done].
    apply map_to_list_empty_iff in Hl as ->. by rewrite lookup_empty in Hv. }
  destruct (model_dump_no_id payload) as (Hno_id & Hno_id' & _).
  unfold create_booking. rewrite Ho. cbv zeta. rewrite Hcar, Hfalsy.
  unfold create_document. rewrite (insert_one_new _ _ _ Hno_id).
  cbn [str]. rewrite (ObjectId_str (next_oid db) Hbound).
  unfold mbind, result_bind. rewrite coll_insert.
  rewrite (find_one_appended _ _ _ Hfresh).
  rewrite (serialize_doc_Some _ (VOid (Bson.Oid (next_oid db))))
    by apply lookup_insert_eq.
  eexists. split; [|split; [by rewrite coll_insert|by rewrite coll_insert_ne]].
  do 3 f_equal. cbn [str]. rewrite delete_insert_eq, delete_id by done.
  rewrite fmap_insert. f_equal.
  apply map_eq. intros k. rewrite lookup_fmap.
  destruct (model_dump payload !! k) as [v|] eqn:Hk; simpl; [|done].
  unfold stringify. by rewrite (model_dump_no_oid _ _ _ Hk).
Qed.

End Bookings.

(** C8.  The booking of a car that exists, with a database configured, is
    answered with status 200, the submitted fields and the identifier the
    store assigned; the answer holds no [status] field, where the answer
    without a database holds [status = "pending"]. *)
Theorem create_booking_no_status :
  ∃ (out : document) db',
    create_booking (Some seeded) booking_1 = (Return (Some out), Some db')
    ∧ status (create_booking (Some seeded) booking_1).1 = 200
    ∧ out !! "id" = Some (VStr "000000000000000000000003")
    ∧ (∀ k v, model_dump booking_1 !! k = Some v → out !! k = Some v)
    ∧ out !! "status" = None
    ∧ ∃ mock : document,
        create_booking None booking_1 = (Return (Some mock), None)
        ∧ mock !! "status" = Some (VStr "pending").
Proof.
  assert (Ho : ObjectId (car_id booking_1) = Return (Bson.Oid 0))
    by (vm_compute; reflexivity).
  assert (Hcar : find_one (coll seeded "car") {["_id" := EqOid (Bson.Oid 0)]}
                 = Some (<["_id" := VOid (Bson.Oid 0)]> (list_to_map tesla_model_3)))
    by (vm_compute; reflexivity).
  assert (Hnext : (next_oid seeded < 2 ^ 96)%N) by (vm_compute; reflexivity).
  assert (Hfresh : ∀ d : document, d ∈ coll seeded "booking" →
                     ¬ has_id (Bson.Oid (next_oid seeded)) d).
  { assert (Hb : coll seeded "booking" = []) by (vm_compute; reflexivity).
    intros d Hd. rewrite Hb in Hd. exfalso. exact (not_elem_of_nil d Hd). }
  destruct (create_booking_created seeded booking_1 _ _ Ho Hcar Hnext Hfresh)
    as (db' & Hr & _).
  destruct (model_dump_no_id booking_1) as (_ & Hid & Hstatus).
  eexists _, db'. split; [exact Hr|]. rewrite Hr.
  split; [reflexivity|]. split; [by rewrite lookup_insert_eq|].
  split; [|split].
  - intros k v Hk. rewrite lookup_insert_ne; [done|]. intros <-. congruence.
  - by rewrite lookup_insert_ne.
  - eexists. split; [reflexivity|]. by vm_compute.
Qed.

(** The seed, run on a database without cars. *)
Lemma insert_many_seed_cars (db : database) :
  coll db "car" = [] →
  coll (insert_many db "car" seed_cars) "car"
  = [ <["_id" := VOid (Bson.Oid (next_oid db))]> (list_to_map tesla_model_3);
      <["_id" := VOid (Bson.Oid (next_oid db + 1))]> (list_to_map bmw_x5);
      <["_id" := VOid (Bson.Oid (next_oid db + 2))]> (list_to_map toyota_corolla) ].
Proof.
  intros Hnone. unfold seed_cars. cbn [insert_many].
  rewrite (insert_one_new db) by reflexivity. cbn [fst].
  rewrite insert_one_new by reflexivity. cbn [fst next_oid].
  rewrite insert_one_new by reflexivity. cbn [fst next_oid].
  rewrite !coll_insert, Hnone. cbn [app].
  by rewrite <- !N.add_1_r, <- N.add_assoc.
Qed.

Lemma count_documents_all (c : collection) :
  count_documents c ∅ = Z.of_nat (length c).
Proof. unfold count_documents. by rewrite find_all. Qed.

(** C9 (amended).  With a database configured: when a car is stored,
    [POST /api/seed] reports that cars already exist and leaves the
    database as it is; when none is, it stores exactly the three fixed
    cars, each under a new identifier, and reports three inserted; so a
    second call finds cars, reports that they exist and changes nothing.
    With no database configured it reports that and stores nothing. *)
Theorem seed_demo_cars_contract (db : database) :
  seed_demo_cars None = (no_db_body, None)
  ∧ (coll db "car" ≠ [] →
       seed_demo_cars (Some db) = (cars_exist_body, Some db))
  ∧ (coll db "car" = [] →
       ∃ db',
         seed_demo_cars (Some db) = (inserted_body, Some db')
         ∧ coll db' "car"
           = [ <["_id" := VOid (Bson.Oid (next_oid db))]> (list_to_map tesla_model_3);
               <["_id" := VOid (Bson.Oid (next_oid db + 1))]> (list_to_map bmw_x5);
               <["_id" := VOid (Bson.Oid (next_oid db + 2))]> (list_to_map toyota_corolla) ]
         ∧ length (coll db' "car") = 3%nat)
  ∧ (∃ db1,
       (seed_demo_cars (Some db)).2 = Some db1
       ∧ seed_demo_cars (Some db1) = (cars_exist_body, Some db1)
       ∧ (seed_demo_cars (seed_demo_cars (Some db)).2).2
         = (seed_demo_cars (Some db)).2).
Proof.
  assert (Hexist : ∀ d : database, coll d "car" ≠ [] →
            seed_demo_cars (Some d) = (cars_exist_body, Some d)).
  { intros d Hne. unfold seed_demo_cars. rewrite count_documents_all.
    destruct (coll d "car"); [done|]. done. }
  assert (Hnone : coll db "car" = [] →
            seed_demo_cars (Some db)
            = (inserted_body, Some (insert_many db "car" seed_cars))).
  { intros He. unfold seed_demo_cars. by rewrite count_documents_all, He. }
  split; [done|]. split; [apply Hexist|]. split.
  - intros He. eexists. split; [by apply Hnone|].
    rewrite (insert_many_seed_cars _ He). done.
  - destruct (coll db "car") as [|c0 cs] eqn:Hc.
    + exists (insert_many db "car" seed_cars).
      rewrite (Hnone eq_refl). cbn [snd].
      assert (Hne : coll (insert_many db "car" seed_cars) "car" ≠ [])
        by (by rewrite (insert_many_seed_cars _ Hc)).
      by rewrite (Hexist _ Hne).
    + exists db.
      assert (Hne : coll db "car" ≠ []) by (by rewrite Hc).
      rewrite (Hexist _ Hne). cbn [snd]. by rewrite (Hexist _ Hne).
Qed.

(** C9, as stated, fails when no database is configured: no car is
    stored, and the seed stores none. *)
Lemma seed_demo_cars_no_db :
  seed_demo_cars None = (no_db_body, None)
  ∧ (seed_demo_cars None).1 ≠ inserted_body
  ∧ (seed_demo_cars None).2 = None.
Proof.
  split; [reflexivity|]. split; [|reflexivity].
  intros He. apply (f_equal (λ m : document, m !! "inserted")) in He.
  vm_compute in He. discriminate He.
Qed.

Lemma seed_demo_cars_contract_witness :
  coll (Database ∅ 0) "car" = []
  ∧ coll seeded "car" ≠ []
  ∧ (∃ db', seed_demo_cars (Some (Database ∅ 0)) = (inserted_body, Some db')
            ∧ length (coll db' "car") = 3%nat)
  ∧ seed_demo_cars (Some seeded) = (cars_exist_body, Some seeded).
Proof.
  assert (Hfull : coll seeded "car" ≠ []).
  { unfold seeded. rewrite insert_many_seed_cars by reflexivity. discriminate. }
  split; [reflexivity|]. split; [exact Hfull|]. split.
  - destruct (seed_demo_cars_contract (Database ∅ 0)) as (_ & _ & Hins & _).
    destruct (Hins eq_refl) as (db' & Hseed & _ & Hlen).
    exists db'. split; [exact Hseed|exact Hlen].
  - exact (proj1 (proj2 (seed_demo_cars_contract seeded)) Hfull).
Defined.

(* ================================================================== *)
(** ** Further properties: the serializer *)
(* ================================================================== *)

Section SerializerMore.
Context `{Host}.

Lemma serialize_doc_Raise (d : document) e :
  serialize_doc (Some d) = Raise e →
  e = KeyError "_id" ∧ d ≠ ∅ ∧ d !! "_id" = None.
Proof.
  intros Hr.
  destruct (serialize_doc_cases d) as [[_ Hs]|[(Hne & Hid & Hs)|(v & _ & Hs)]];
    rewrite Hs in Hr; [done| |done].
  by injection Hr as <-.
Qed.

(** X1.  [serialize_doc] fails in one way only: with [KeyError('_id')], on
    a record that is not empty and has no [_id]; on [None] it never
    fails. *)
Theorem serialize_doc_raises (d : document) e :
  (serialize_doc (Some d) = Raise e ↔
     e = KeyError "_id" ∧ d ≠ ∅ ∧ d !! "_id" = None)
  ∧ serialize_doc None ≠ Raise e.
Proof.
  split; [|done]. split.
  - apply serialize_doc_Raise.
  - intros (-> & Hne & Hid).
    destruct (serialize_doc_cases d) as [[? _]|[(_ & _ & Hs)|(v & Hv & _)]];
      [done|done|congruence].
Qed.

(** X2.  What [serialize_doc] returns for a record that is not empty has
    the fields of the record without [_id], and [id]; [id] holds the text
    of what [_id] held; and no field holds an identifier any more. *)
Theorem serialize_doc_shape (d out : document) :
  d ≠ ∅ → serialize_doc (Some d) = Return (Some out) →
  (∃ v, d !! "_id" = Some v ∧ out !! "id" = Some (VStr (str v)))
  ∧ dom out = {["id"]} ∪ (dom d ∖ {["_id"]})
  ∧ no_raw_id out.
Proof.
  intros Hne Hs.
  destruct (serialize_doc_cases d) as [[? _]|[(_ & _ & Hr)|(v & Hv & Hr)]];
    [done|congruence|].
  rewrite Hr in Hs. injection Hs as <-. split; [|split].
  - exists v. split; [done|]. by rewrite lookup_fmap, lookup_insert_eq.
  - by rewrite dom_fmap_L, dom_insert_L, dom_delete_L.
  - intros k x Hk. rewrite lookup_fmap in Hk.
    destruct (_ !! k) as [y|]; simpl in Hk; [|done].
    injection Hk as <-. apply stringify_not_oid.
Qed.

End SerializerMore.

Lemma serialize_doc_shape_witness :
  doc_with_id ≠ ∅
  ∧ ∃ out : document,
      serialize_doc (Some doc_with_id) = Return (Some out)
      ∧ dom out = {["id"; "owner"]}
      ∧ no_raw_id out.
Proof.
  assert (Hne : doc_with_id ≠ ∅).
  { intros He. apply (f_equal (λ m : document, m !! "_id")) in He. discriminate He. }
  split; [exact Hne|]. eexists.
  assert (Hs := serialize_doc_Some doc_with_id (VOid (Bson.Oid 1)) eq_refl).
  split; [exact Hs|].
  destruct (serialize_doc_shape _ _ Hne Hs) as (_ & Hdom & Hraw).
  split; [|exact Hraw]. rewrite Hdom. vm_compute. reflexivity.
Defined.

(* ================================================================== *)
(** ** Further properties: the car listing *)
(* ================================================================== *)

Lemma valid_request_check seats_gte min_price max_price limit :
  ge_le 1 9 seats_gte && ge_0 min_price && ge_0 max_price
    && ge_le 1 200 (Some (default 50 limit)) = true
  ↔ valid_request seats_gte min_price max_price limit.
Proof.
  unfold valid_request, ge_le, ge_0.
  assert (Hs : from_option (λ n, (1 <=? n) && (n <=? 9)) true seats_gte = true
               ↔ ∀ n, seats_gte = Some n → 1 ≤ n ≤ 9).
  { destruct seats_gte as [n|]; simpl; [|by split].
    rewrite andb_true_iff, !Z.leb_le.
    split; [by intros Hn ? [= <-]|intros Hn; by apply Hn]. }
  assert (Hq : ∀ o : option Q, from_option (Qle_bool 0) true o = true
               ↔ ∀ a, o = Some a → (0 <= a)%Q).
  { intros [a|]; simpl; [|by split]. rewrite Qle_bool_iff.
    split; [by intros Ha ? [= <-]|intros Ha; by apply Ha]. }
  rewrite !andb_true_iff, Hs, !Hq. cbn [from_option].
  rewrite andb_true_iff, !Z.leb_le. tauto.
Qed.

Lemma valid_request_dec seats_gte min_price max_price limit :
  valid_request seats_gte min_price max_price limit
  ∨ ¬ valid_request seats_gte min_price max_price limit.
Proof.
  rewrite <- valid_request_check. destruct (_ && _); [by left|by right].
Qed.

Lemma length_limit_min n (l : list document) :
  1 ≤ n → Z.of_nat (length (Store.limit n l)) = Z.min n (Z.of_nat (length l)).
Proof.
  intros Hn. unfold Store.limit.
  destruct (Z.eqb_spec n 0) as [->|_]; [lia|].
  rewrite length_take. lia.
Qed.

Lemma limit_all n (l : list document) :
  Z.of_nat (length l) ≤ n → Store.limit n l = l.
Proof.
  intros Hn. unfold Store.limit.
  destruct (Z.eqb_spec n 0) as [->|_]; [done|].
  apply take_ge. lia.
Qed.

Lemma sort_map_unknown s :
  s ∉ ["price_asc"; "price_desc"; "popularity"; "newest"] →
  sort_map !! s = None.
Proof. intros Hs. by apply not_elem_of_list_to_map_1. Qed.

Section ListCarsMore.
Context `{Host}.

Lemma serialized_spec (d : document) :
  is_Some (d !! "_id") → serialize_doc (Some d) = Return (Some (serialized d)).
Proof.
  intros [v Hv]. unfold serialized. rewrite Hv. by apply serialize_doc_Some.
Qed.

Lemma serialize_all_stored (cursor : list document) :
  stored cursor →
  serialize_all cursor = Return ((λ d, Some (serialized d)) <$> cursor).
Proof.
  induction cursor as [|d c IH]; intros Hst; [done|].
  cbn [serialize_all]. rewrite serialized_spec by (apply Hst; left).
  unfold mbind, result_bind.
  rewrite IH; [done|]. intros d' Hd'. apply Hst. by right.
Qed.

Lemma serialize_all_raises (cursor : list document) e :
  serialize_all cursor = Raise e →
  e = KeyError "_id" ∧ ∃ d, d ∈ cursor ∧ d !! "_id" = None.
Proof.
  induction cursor as [|d c IH]; [done|].
  cbn [serialize_all]. unfold mbind, result_bind.
  destruct (serialize_doc (Some d)) as [i|e'] eqn:Hd.
  - destruct (serialize_all c) as [rest|e'] eqn:Hc; [done|].
    intros [= ->]. destruct (IH eq_refl) as (-> & d' & Hd' & Hno).
    split; [done|]. exists d'. split; [by right|done].
  - intros [= ->]. apply serialize_doc_Raise in Hd as (-> & _ & Hno).
    split; [done|]. exists d. split; [left|done].
Qed.

Lemma list_cars_unfold (db : database)
    type brand transmission fuel_type seats_gte min_price max_price sort limit :
  valid_request seats_gte min_price max_price limit →
  list_cars (Some db) type brand transmission fuel_type seats_gte
    min_price max_price sort limit
  = items ← serialize_all (car_cursor db type brand transmission fuel_type
                             seats_gte min_price max_price sort limit);
    Return (Listing items (Z.of_nat (length items))).
Proof.
  intros Hv%valid_request_check. unfold list_cars. cbv zeta.
  by rewrite Hv.
Qed.

Lemma list_cars_invalid (db : option database)
    type brand transmission fuel_type seats_gte min_price max_price sort limit :
  ¬ valid_request seats_gte min_price max_price limit →
  list_cars db type brand transmission fuel_type seats_gte
    min_price max_price sort limit = Raise RequestValidationError.
Proof.
  intros Hv. unfold list_cars. cbv zeta.
  destruct (_ && _) eqn:Hc; [|done].
  by apply valid_request_check in Hc.
Qed.

Lemma elem_of_car_cursor (db : database)
    type brand transmission fuel_type seats_gte min_price max_price sort limit d :
  d ∈ car_cursor db type brand transmission fuel_type seats_gte
        min_price max_price sort limit →
  d ∈ coll db "car"
  ∧ matches (car_query type brand transmission fuel_type seats_gte
               min_price max_price) d = true.
Proof.
  unfold car_cursor. cbv zeta. intros Hd%elem_of_limit.
  apply elem_of_find.
  destruct (truthy sort); [|done].
  destruct (sort_map !! default "" sort) as [[field direction]|]; [|done].
  by rewrite cursor_sort_perm in Hd.
Qed.

Lemma car_cursor_perm (db : database)
    type brand transmission fuel_type seats_gte min_price max_price sort limit :
  1 ≤ default 50 limit →
  ∃ l, l ≡ₚ find (coll db "car")
             (car_query type brand transmission fuel_type seats_gte
                min_price max_price)
       ∧ car_cursor db type brand transmission fuel_type seats_gte
           min_price max_price sort limit
         = Store.limit (default 50 limit) l.
Proof.
  intros Hl. unfold car_cursor. cbv zeta.
  destruct (truthy sort); [|by eexists].
  destruct (sort_map !! default "" sort) as [[field direction]|]; [|by eexists].
  eexists. split; [apply cursor_sort_perm|done].
Qed.

End ListCarsMore.

Lemma encodable_document (d : document) :
  encodable d = true ↔ ∀ k v, d !! k = Some v → has_oid v = false.
Proof.
  unfold encodable, document_body. rewrite forallb_forall. split.
  - intros Hall k v Hk. apply negb_true_iff, (Hall (k, v)).
    apply list_elem_of_In. by apply elem_of_map_to_list.
  - intros Hall [k v] Hin. apply list_elem_of_In in Hin.
    apply elem_of_map_to_list in Hin. apply negb_true_iff. by apply (Hall k).
Qed.

Section Encoding.
Context `{Host}.

(** The serialized record is encoded exactly when identifiers sat at the
    top of the stored one only. *)
Lemma encodable_serialized (d : document) :
  is_Some (d !! "_id") → (encodable (serialized d) = true ↔ flat d).
Proof.
  intros [i Hi]. rewrite encodable_document. unfold serialized. rewrite Hi.
  split.
  - intros Hall k v H_id Hid Hk Hv.
    specialize (Hall k (stringify v)).
    rewrite lookup_serialized, Hk in Hall by done.
    specialize (Hall eq_refl). unfold stringify in Hall. by rewrite Hv in Hall.
  - intros Hflat k v. rewrite lookup_fmap.
    destruct (decide (k = "id")) as [->|Hid].
    { rewrite lookup_insert_eq. by intros [= <-]. }
    rewrite lookup_insert_ne by done.
    destruct (decide (k = "_id")) as [->|H_id].
    { by rewrite lookup_delete_eq. }
    rewrite lookup_delete_ne by done.
    destruct (d !! k) as [x|] eqn:Hk; [|done]. intros [= <-].
    unfold stringify. destruct (is_oid x) eqn:Hx; [done|]. by apply (Hflat k).
Qed.

Lemma not_encodable_serialized (d : document) :
  is_Some (d !! "_id") → nested_id d → encodable (serialized d) = false.
Proof.
  intros Hi (k & v & H_id & Hid & Hk & Hv & Hin).
  apply not_true_is_false. rewrite (encodable_serialized _ Hi). intros Hflat.
  specialize (Hflat k v H_id Hid Hk Hv). congruence.
Qed.

Lemma flat_not_nested (d : document) : flat d ↔ ¬ nested_id d.
Proof.
  split.
  - intros Hflat (k & v & H_id & Hid & Hk & Hv & Hin).
    specialize (Hflat k v H_id Hid Hk Hv). congruence.
  - intros Hn k v H_id Hid Hk Hv. destruct (has_oid v) eqn:Hin; [|done].
    destruct Hn. by exists k, v.
Qed.

End Encoding.

Section ListCarsExtras.
Context `{Host}.


(** X4.  When the limit is not below the number of cars that match,
    every car that matches is listed. *)
Theorem list_cars_complete (db : database)
    type brand transmission fuel_type seats_gte min_price max_price sort limit
    body d :
  list_cars (Some db) type brand transmission fuel_type seats_gte
    min_price max_price sort limit = Return body →
  stored (coll db "car") →
  Z.of_nat (length (find (coll db "car")
     (car_query type brand transmission fuel_type seats_gte
        min_price max_price))) ≤ default 50 limit →
  d ∈ coll db "car" →
  matches (car_query type brand transmission fuel_type seats_gte
             min_price max_price) d = true →
  Some (serialized d) ∈ items body.
Proof.
  intros Hbody Hst Hlen Hd Hm.
  destruct (valid_request_dec seats_gte min_price max_price limit) as [Hv|Hv];
    [|by rewrite (list_cars_invalid _ _ _ _ _ _ _ _ _ _ Hv) in Hbody].
  rewrite (list_cars_unfold _ _ _ _ _ _ _ _ _ _ Hv) in Hbody.
  assert (Hcur : stored (car_cursor db type brand transmission fuel_type
                           seats_gte min_price max_price sort limit)).
  { intros d' Hd'. apply Hst. by apply elem_of_car_cursor in Hd' as [? _]. }
  rewrite (serialize_all_stored _ Hcur) in Hbody.
  unfold mbind, result_bind in Hbody. injection Hbody as <-. cbn [items].
  apply list_elem_of_fmap. exists d. split; [done|].
  destruct Hv as (_ & _ & _ & Hlim).
  destruct (car_cursor_perm db type brand transmission fuel_type seats_gte
              min_price max_price sort limit) as (l & Hl & ->); [lia|].
  rewrite limit_all by (by rewrite (Permutation_length Hl)).
  rewrite Hl. by apply elem_of_find.
Qed.

(** X5.  A [sort] value that is not one of the four names of [sort_map]
    is ignored: the answer is the one without [sort]. *)
Theorem list_cars_unknown_sort (db : option database)
    type brand transmission fuel_type seats_gte min_price max_price s limit :
  s ∉ ["price_asc"; "price_desc"; "popularity"; "newest"] →
  list_cars db type brand transmission fuel_type seats_gte
    min_price max_price (Some s) limit
  = list_cars db type brand transmission fuel_type seats_gte
      min_price max_price None limit.
Proof.
  intros Hs%sort_map_unknown. unfold list_cars. cbv zeta.
  change (default "" (Some s)) with s. rewrite Hs.
  by destruct (truthy (Some s)).
Qed.

(** X6.  [GET /api/cars] raises the validation error exactly when the
    request breaks a constraint of the signature, and only then is its
    status 422. *)
Theorem list_cars_validation (db : option database)
    type brand transmission fuel_type seats_gte min_price max_price sort limit :
  let r := list_cars db type brand transmission fuel_type seats_gte
             min_price max_price sort limit in
  (r = Raise RequestValidationError
   ↔ ¬ valid_request seats_gte min_price max_price limit)
  ∧ (status r = 422 ↔ ¬ valid_request seats_gte min_price max_price limit).
Proof.
  cbv zeta.
  destruct (valid_request_dec seats_gte min_price max_price limit) as [Hv|Hv].
  - assert (Hr : (∃ body, list_cars db type brand transmission fuel_type seats_gte
                            min_price max_price sort limit = Return body)
                 ∨ list_cars db type brand transmission fuel_type seats_gte
                     min_price max_price sort limit = Raise (KeyError "_id")).
    { destruct db as [d|].
      - rewrite (list_cars_unfold _ _ _ _ _ _ _ _ _ _ Hv).
        unfold mbind, result_bind.
        destruct (serialize_all _) as [its|e'] eqn:Hs; [left; by eexists|].
        apply serialize_all_raises in Hs as (-> & _). by right.
      - left. unfold list_cars. cbv zeta.
        apply valid_request_check in Hv. rewrite Hv. by eexists. }
    destruct Hr as [[body ->]| ->].
    + split; (split; [|done]); [done|]. cbn [status].
      destruct (encodable body); lia.
    + split; (split; [|done]); [done|]. cbn [status]. lia.
  - rewrite (list_cars_invalid _ _ _ _ _ _ _ _ _ _ Hv). by split.
Qed.

(** X7.  Without a database, a request that meets the constraints gets
    the first [limit] of the two demo cars, whatever the filters and the
    sort. *)
Theorem list_cars_demo
    type brand transmission fuel_type seats_gte min_price max_price sort limit :
  valid_request seats_gte min_price max_price limit →
  list_cars None type brand transmission fuel_type seats_gte
    min_price max_price sort limit
  = Return (Listing (Some <$> take (Z.to_nat (default 50 limit)) demo_cars)
                    (Z.min (default 50 limit) 2)).
Proof.
  intros Hv. pose proof Hv as (_ & _ & _ & Hlim).
  apply valid_request_check in Hv. unfold list_cars. cbv zeta. rewrite Hv.
  cbn [negb]. unfold slice_to.
  destruct (Z.ltb_spec (default 50 limit) 0); [lia|].
  do 2 f_equal. rewrite length_take.
  change (length demo_cars) with 2%nat. lia.
Qed.

(** X8.  With a database whose cars all carry an [_id], every item of the
    answer has a string under [id], no [_id], and no field that holds an
    identifier. *)
Theorem list_cars_items_shape (db : database)
    type brand transmission fuel_type seats_gte min_price max_price sort limit
    body x :
  list_cars (Some db) type brand transmission fuel_type seats_gte
    min_price max_price sort limit = Return body →
  stored (coll db "car") →
  x ∈ items body →
  ∃ item : document,
    x = Some item
    ∧ (∃ s, item !! "id" = Some (VStr s))
    ∧ item !! "_id" = None
    ∧ no_raw_id item.
Proof.
  intros Hbody Hst Hx.
  destruct (list_cars_items _ _ _ _ _ _ _ _ _ _ _ _ Hbody Hx) as (d & Hd & _ & Hs).
  destruct (Hst d Hd) as [v Hv].
  rewrite (serialize_doc_Some _ _ Hv) in Hs. injection Hs as <-.
  eexists. split; [done|]. split; [|split].
  - eexists. by rewrite lookup_fmap, lookup_insert_eq.
  - by rewrite lookup_fmap, lookup_insert_ne, lookup_delete_eq.
  - intros k y Hk. rewrite lookup_fmap in Hk.
    destruct (_ !! k) as [z|]; simpl in Hk; [|done].
    injection Hk as <-. apply stringify_not_oid.
Qed.

End ListCarsExtras.

(** The seeded database, spelled out. *)
Lemma seeded_cars :
  coll seeded "car"
  = [ <["_id" := VOid (Bson.Oid 0)]> (list_to_map tesla_model_3);
      <["_id" := VOid (Bson.Oid 1)]> (list_to_map bmw_x5);
      <["_id" := VOid (Bson.Oid 2)]> (list_to_map toyota_corolla) ].
Proof. unfold seeded. by rewrite insert_many_seed_cars. Qed.

Lemma seeded_stored : stored (coll seeded "car").
Proof.
  rewrite seeded_cars. intros d Hd.
  repeat (apply elem_of_cons in Hd as [->|Hd];
          [rewrite lookup_insert_eq; by eexists|]).
  by apply elem_of_nil in Hd.
Qed.

Lemma valid_request_plain limit :
  1 ≤ default 50 limit ≤ 200 → valid_request None None None limit.
Proof. intros Hl. unfold valid_request. split_and!; try done; lia. Qed.

Lemma flat_forallb (d : document) :
  forallb (λ kv, is_oid kv.2 || negb (has_oid kv.2)) (map_to_list d) = true →
  flat d.
Proof.
  rewrite forallb_forall. intros Hall k v _ _ Hk Hv.
  specialize (Hall (k, v)). cbn [snd] in Hall. rewrite Hv in Hall.
  apply negb_true_iff, Hall, list_elem_of_In. by apply elem_of_map_to_list.
Qed.

Lemma seeded_flat d : d ∈ coll seeded "car" → flat d.
Proof.
  rewrite seeded_cars. intros Hd.
  repeat (apply elem_of_cons in Hd as [->|Hd];
          [apply flat_forallb; vm_compute; reflexivity|]).
  exfalso. exact (not_elem_of_nil d Hd).
Qed.


Lemma list_cars_complete_witness :
  ∃ body,
    list_cars (Some seeded) (Some "sedan") None None None None None None None None
      = Return body
    ∧ Some (serialized (<["_id" := VOid (Bson.Oid 2)]> (list_to_map toyota_corolla)))
      ∈ items body.
Proof.
  destruct (list_cars (Some seeded) (Some "sedan") None None None None None None
              None None) as [body|e] eqn:Hbody;
    [|vm_compute in Hbody; discriminate Hbody].
  exists body. split; [reflexivity|].
  apply (list_cars_complete seeded (Some "sedan") None None None None None None
           None None body _ Hbody seeded_stored).
  - assert (Hn : length (find (coll seeded "car")
                   (car_query (Some "sedan") None None None None None None)) = 2%nat)
      by (vm_compute; reflexivity).
    rewrite Hn. simpl. lia.
  - rewrite seeded_cars. right. right. left.
  - vm_compute. reflexivity.
Defined.

Lemma list_cars_unknown_sort_witness :
  ("cheapest" ∉ ["price_asc"; "price_desc"; "popularity"; "newest"])
  ∧ list_cars (Some seeded) None None None None None None None (Some "cheapest") None
    = list_cars (Some seeded) None None None None None None None None None.
Proof.
  assert (Hs : "cheapest" ∉ ["price_asc"; "price_desc"; "popularity"; "newest"]).
  { intros Hin.
    repeat (apply elem_of_cons in Hin as [Hin|Hin]; [discriminate Hin|]).
    by apply elem_of_nil in Hin. }
  split; [exact Hs|].
  exact (list_cars_unknown_sort (Some seeded) None None None None None None None
           "cheapest" None Hs).
Defined.

Lemma list_cars_demo_witness :
  valid_request None None None (Some 1)
  ∧ list_cars None (Some "suv") None None None None None None None (Some 1)
    = Return (Listing (Some <$> take 1 demo_cars) 1).
Proof.
  assert (Hv : valid_request None None None (Some 1))
    by (apply valid_request_plain; simpl; lia).
  split; [exact Hv|].
  exact (list_cars_demo (Some "suv") None None None None None None None (Some 1) Hv).
Defined.

Lemma list_cars_items_shape_witness :
  stored (coll seeded "car")
  ∧ ∃ body,
      list_cars (Some seeded) None None None None None None None None None
        = Return body
      ∧ ∀ x, x ∈ items body →
          ∃ item : document,
            x = Some item ∧ (∃ s, item !! "id" = Some (VStr s))
            ∧ item !! "_id" = None ∧ no_raw_id item.
Proof.
  split; [exact seeded_stored|].
  destruct (list_cars (Some seeded) None None None None None None None None None)
    as [body|e] eqn:Hbody; [|vm_compute in Hbody; discriminate Hbody].
  exists body. split; [reflexivity|]. intros x Hx.
  exact (list_cars_items_shape seeded None None None None None None None None None
           body x Hbody seeded_stored Hx).
Defined.

(* ================================================================== *)
(** ** Further properties: one car, one booking *)
(* ================================================================== *)

Lemma find_one_Some (c : collection) (q : query) d :
  find_one c q = Some d → d ∈ c ∧ matches q d = true.
Proof.
  unfold find_one. intros Hh. apply elem_of_find.
  destruct (find c q); [done|]. injection Hh as ->. left.
Qed.

Lemma find_one_known (c : collection) o :
  (∃ d, d ∈ c ∧ has_id o d) →
  ∃ d, find_one c {["_id" := EqOid o]} = Some d ∧ d ∈ c ∧ has_id o d.
Proof.
  intros (d & Hd & Hid).
  destruct (find_one c {["_id" := EqOid o]}) as [d'|] eqn:Hf.
  - exists d'. split; [done|]. apply find_one_Some in Hf as [? ?].
    split; [done|]. by apply matches_id.
  - assert (Hin : d ∈ find c {["_id" := EqOid o]})
      by (apply elem_of_find; split; [done|by apply matches_id]).
    unfold find_one in Hf. destruct (find c _); [by apply elem_of_nil in Hin|done].
Qed.

Lemma has_id_not_falsy o (d : document) : has_id o d → falsy (Some d) = false.
Proof.
  intros (v & Hv & _). unfold falsy.
  destruct (map_to_list d) eqn:Hl; [|done].
  apply map_to_list_empty_iff in Hl as ->. by rewrite lookup_empty in Hv.
Qed.

Lemma ObjectId_raises s e : ObjectId s = Raise e → e = InvalidId s.
Proof.
  unfold ObjectId.
  destruct (String.length s =? 24)%nat; [destruct (Bson.fromhex s)|];
    congruence.
Qed.

Lemma ObjectId_valid s o : ObjectId s = Return o → Bson.is_valid s = true.
Proof. intros Ho. apply is_valid_ObjectId. by exists o. Qed.

Section OneCar.
Context `{Host}.

Lemma get_car_known (db : database) (car_id : string) o (d : document) :
  ObjectId car_id = Return o →
  find_one (coll db "car") {["_id" := EqOid o]} = Some d →
  get_car (Some db) car_id = Return (Some (serialized d)).
Proof.
  intros Ho Hf. pose proof (find_one_Some _ _ _ Hf) as [_ Hid%matches_id].
  unfold get_car. rewrite Ho. cbv zeta. rewrite Hf, (has_id_not_falsy _ _ Hid).
  apply serialized_spec. destruct Hid as (v & -> & _). by eexists.
Qed.



(** X11.  With a database, [POST /api/bookings] answers 400 exactly when
    [car_id] is not one [bson.ObjectId] accepts, and whenever it answers
    400 or 404 the database is left as it was. *)
Theorem create_booking_refused (db : database) (payload : BookingRequest) :
  let r := create_booking (Some db) payload in
  (status r.1 = 400 ↔ Bson.is_valid (car_id payload) = false)
  ∧ (status r.1 = 400 ∨ status r.1 = 404 → r.2 = Some db).
Proof.
  cbv zeta. unfold create_booking.
  destruct (ObjectId (car_id payload)) as [o|e] eqn:Ho.
  - pose proof (ObjectId_valid _ _ Ho) as Hv. cbv zeta.
    destruct (falsy _); [split; [split; [done|congruence]|done]|].
    destruct (create_document db "booking" (model_dump payload))
      as [db' inserted_id]. cbn [fst snd].
    assert (Hst : ∀ st, st = 400 ∨ st = 404 →
              status (oid ← ObjectId inserted_id;
                      serialize_doc
                        (find_one (coll db' "booking") {["_id" := EqOid oid]}))
              ≠ st).
    { intros st Hst. unfold mbind, result_bind.
      destruct (ObjectId inserted_id) as [oid|e] eqn:Hi.
      - destruct (find_one _ _) as [d|]; [|simpl; lia].
        destruct (serialize_doc (Some d)) as [x|e] eqn:Hs;
          [cbn [status]; destruct (encodable x); lia|].
        apply serialize_doc_Raise in Hs as (-> & _). simpl. lia.
      - apply ObjectId_raises in Hi as ->. simpl. lia. }
    split.
    + split; [|congruence]. intros Hs. by destruct (Hst 400 (or_introl eq_refl)).
    + intros [Hs|Hs];
        [by destruct (Hst 400 (or_introl eq_refl))
        |by destruct (Hst 404 (or_intror eq_refl))].
  - cbn [fst snd]. split; [|done]. split; [|done]. intros _.
    destruct (Bson.is_valid (car_id payload)) eqn:Hv; [|done].
    apply is_valid_ObjectId in Hv as [o Ho']. congruence.
Qed.

End OneCar.


Lemma create_booking_refused_witness :
  Bson.is_valid (car_id booking_unknown) = true
  ∧ status (create_booking (Some seeded) booking_unknown).1 = 404
  ∧ (create_booking (Some seeded) booking_unknown).2 = Some seeded.
Proof.
  assert (Hst : status (create_booking (Some seeded) booking_unknown).1 = 404).
  { vm_compute. reflexivity. }
  split; [reflexivity|]. split; [exact Hst|].
  apply (create_booking_refused seeded booking_unknown). right. exact Hst.
Defined.

(* ================================================================== *)
(** ** Further properties: the booking listing *)
(* ================================================================== *)

Lemma booking_query_user u : u ≠ "" → booking_query (Some u) = {["user_id" := EqStr u]}.
Proof.
  intros Hu. unfold booking_query, set_if, truthy.
  destruct (String.eqb_spec u ""); [done|]. simpl. apply insert_empty.
Qed.

Section Bookings2.
Context `{Host}.

(** X12.  Whatever [GET /api/bookings] returns, [count] is the number of
    items and does not exceed the limit (50 when none is given); the
    request is rejected with the validation error exactly when the limit
    lies outside [1, 200]. *)
Theorem list_bookings_limit (db : option database) user_id (limit : option Z) :
  let r := list_bookings db user_id limit in
  (∀ body, r = Return body →
     count body = Z.of_nat (length (items body)) ∧ count body ≤ default 50 limit)
  ∧ (r = Raise RequestValidationError ↔ ¬ (1 ≤ default 50 limit ≤ 200)).
Proof.
  cbv zeta. unfold list_bookings. cbv zeta. unfold ge_le. cbn [from_option].
  destruct (Z.leb_spec 1 (default 50 limit)) as [Hlo|Hlo]; cbn [andb negb];
    [|split; [done|split; [lia|done]]].
  destruct (Z.leb_spec (default 50 limit) 200) as [Hhi|Hhi]; cbn [andb negb];
    [|split; [done|split; [lia|done]]].
  destruct db as [d|].
  - unfold mbind, result_bind.
    destruct (serialize_all _) as [its|e] eqn:Hs.
    + split; [|split; [done|lia]]. intros body [= <-]. cbn [count items].
      split; [done|]. rewrite (serialize_all_length _ _ Hs).
      apply length_limit. lia.
    + apply serialize_all_raises in Hs as (-> & _).
      split; [done|]. split; [done|lia].
  - split; [|split; [done|lia]]. intros body [= <-]. cbn [count items].
    rewrite length_fmap. split; [done|]. apply length_slice_to. lia.
Qed.


(** X14.  Without a database, [GET /api/bookings] with a limit in
    [1, 200] answers with the one demo booking, whatever [user_id]. *)
Theorem list_bookings_demo user_id (limit : option Z) :
  1 ≤ default 50 limit ≤ 200 →
  list_bookings None user_id limit = Return (Listing (Some <$> demo_bookings) 1).
Proof.
  intros [Hlo Hhi]. unfold list_bookings. cbv zeta. unfold ge_le, slice_to.
  cbn [from_option].
  destruct (Z.leb_spec 1 (default 50 limit)); [|lia].
  destruct (Z.leb_spec (default 50 limit) 200); [|lia].
  destruct (Z.ltb_spec (default 50 limit) 0); [lia|]. cbn [andb negb].
  rewrite take_ge by (change (length demo_bookings) with 1%nat; lia).
  done.
Qed.

End Bookings2.


Lemma list_bookings_demo_witness :
  1 ≤ default 50 (Some 7) ≤ 200
  ∧ list_bookings None (Some "nobody") (Some 7)
    = Return (Listing (Some <$> demo_bookings) 1).
Proof.
  assert (Hl : 1 ≤ default 50 (Some 7) ≤ 200) by (simpl; lia).
  split; [exact Hl|]. exact (list_bookings_demo (Some "nobody") (Some 7) Hl).
Defined.

(* ================================================================== *)
(** ** Further properties: the seed, looked up again *)
(* ================================================================== *)

Lemma no_raw_id_list_to_map (l : list (string * value)) :
  Forall (λ kv, is_oid kv.2 = false) l → no_raw_id (list_to_map l).
Proof.
  intros Hall k v Hk. apply elem_of_list_to_map_2 in Hk.
  rewrite Forall_forall in Hall. by apply (Hall (k, v)).
Qed.

Lemma car_record_no_raw_id brand model type fuel_type luggage mileage
    price_per_day popularity images features description :
  no_raw_id (list_to_map (car_record brand model type fuel_type luggage mileage
                            price_per_day popularity images features description)).
Proof. apply no_raw_id_list_to_map. unfold car_record. by repeat constructor. Qed.

Lemma car_record_no_id brand model type fuel_type luggage mileage
    price_per_day popularity images features description :
  (list_to_map (car_record brand model type fuel_type luggage mileage
                  price_per_day popularity images features description)
     : document) !! "_id" = None.
Proof. reflexivity. Qed.

Lemma matches_id_inserted o o' (d : document) :
  matches {["_id" := EqOid o]} (<["_id" := VOid o']> d) = Bson.oid_eqb o o'.
Proof.
  unfold matches. rewrite map_to_list_singleton. cbn [forallb fst snd].
  rewrite lookup_insert_eq. simpl. by rewrite orb_false_r, andb_true_r.
Qed.

Lemma coll_insert_many_ne (db : database) name name' docs :
  name ≠ name' → coll (insert_many db name docs) name' = coll db name'.
Proof.
  intros Hne. revert db. induction docs as [|d ds IH]; intros db; [done|].
  cbn [insert_many]. rewrite IH. unfold insert_one.
  destruct (d !! "_id"); cbn [fst]; by apply coll_insert_ne.
Qed.

Section SeedMore.
Context `{Host}.

Lemma stringify_no_raw_id (m : document) : no_raw_id m → stringify <$> m = m.
Proof.
  intros Hm. apply map_eq. intros k. rewrite lookup_fmap.
  destruct (m !! k) as [v|] eqn:Hk; [|done]. simpl.
  unfold stringify. by rewrite (Hm k v Hk).
Qed.

(** What [serialize_doc] makes of a record without identifiers that the
    store gave the identifier [o]. *)
Lemma serialized_inserted (d : document) o :
  d !! "_id" = None → no_raw_id d →
  serialized (<["_id" := VOid o]> d) = <["id" := VStr (Bson.oid_str o)]> d.
Proof.
  intros Hno Hraw. unfold serialized. rewrite lookup_insert_eq.
  rewrite delete_insert_eq, delete_id by done. cbn [str].
  rewrite fmap_insert. f_equal. by apply stringify_no_raw_id.
Qed.

(** X15.  Seed, then look up: after [POST /api/seed] on a database without
    cars, [GET /api/cars/{id}] with the text of each identifier the store
    assigned answers with that demo car, its fields unchanged, and [id]. *)
Theorem seed_then_get_car (db : database) :
  coll db "car" = [] →
  (next_oid db + 2 < 2 ^ 96)%N →
  ∃ db',
    (seed_demo_cars (Some db)).2 = Some db'
    ∧ get_car (Some db') (Bson.oid_str (Bson.Oid (next_oid db)))
      = Return (Some (<["id" := VStr (Bson.oid_str (Bson.Oid (next_oid db)))]>
                        (list_to_map tesla_model_3)))
    ∧ get_car (Some db') (Bson.oid_str (Bson.Oid (next_oid db + 1)))
      = Return (Some (<["id" := VStr (Bson.oid_str (Bson.Oid (next_oid db + 1)))]>
                        (list_to_map bmw_x5)))
    ∧ get_car (Some db') (Bson.oid_str (Bson.Oid (next_oid db + 2)))
      = Return (Some (<["id" := VStr (Bson.oid_str (Bson.Oid (next_oid db + 2)))]>
                        (list_to_map toyota_corolla))).
Proof.
  intros Hnone Hbound.
  exists (insert_many db "car" seed_cars). split.
  { unfold seed_demo_cars. by rewrite count_documents_all, Hnone. }
  assert (Hget : ∀ i car rest before,
            (i ≤ 2)%N →
            coll (insert_many db "car" seed_cars) "car"
              = before ++ <["_id" := VOid (Bson.Oid (next_oid db + i))]> car :: rest →
            Forall (λ d, matches {["_id" := EqOid (Bson.Oid (next_oid db + i))]} d
                         = false) before →
            car !! "_id" = None → no_raw_id car →
            get_car (Some (insert_many db "car" seed_cars))
              (Bson.oid_str (Bson.Oid (next_oid db + i)))
            = Return (Some (<["id" := VStr (Bson.oid_str (Bson.Oid (next_oid db + i)))]>
                              car))).
  { intros i car rest before Hi Hcoll Hbefore Hno Hraw. unfold get_car.
    rewrite ObjectId_str by lia. cbv zeta.
    assert (Hf : find_one (coll (insert_many db "car" seed_cars) "car")
                   {["_id" := EqOid (Bson.Oid (next_oid db + i))]}
                 = Some (<["_id" := VOid (Bson.Oid (next_oid db + i))]> car)).
    { rewrite Hcoll. unfold find_one, find. rewrite List.filter_app.
      assert (List.filter (matches {["_id" := EqOid (Bson.Oid (next_oid db + i))]})
                before = []) as ->.
      { clear Hcoll. induction Hbefore as [|d l Hd _ IH]; [reflexivity|].
        cbn [List.filter]. rewrite Hd. exact IH. }
      cbn [app List.filter]. rewrite matches_id_inserted.
      rewrite (proj2 (oid_eqb_eq _ _) eq_refl). reflexivity. }
    rewrite Hf.
    rewrite (has_id_not_falsy (Bson.Oid (next_oid db + i)))
      by (eexists; split; [apply lookup_insert_eq|left]).
    rewrite serialized_spec by (rewrite lookup_insert_eq; by eexists).
    by rewrite serialized_inserted. }
  assert (Hdiff : ∀ i j car, i ≠ j →
            matches {["_id" := EqOid (Bson.Oid (next_oid db + i))]}
              (<["_id" := VOid (Bson.Oid (next_oid db + j))]> car) = false).
  { intros i j car Hij. rewrite matches_id_inserted.
    apply not_true_is_false. rewrite oid_eqb_eq. intros [= Heq]. lia. }
  pose proof (insert_many_seed_cars db Hnone) as Hcoll.
  set (c0 := <["_id" := VOid (Bson.Oid (next_oid db))]>
               (list_to_map tesla_model_3 : document)) in *.
  set (c1 := <["_id" := VOid (Bson.Oid (next_oid db + 1))]>
               (list_to_map bmw_x5 : document)) in *.
  set (c2 := <["_id" := VOid (Bson.Oid (next_oid db + 2))]>
               (list_to_map toyota_corolla : document)) in *.
  split; [|split].
  - rewrite <- (N.add_0_r (next_oid db)).
    apply (Hget 0%N (list_to_map tesla_model_3) [c1; c2] []);
      [lia| |constructor|apply car_record_no_id|apply car_record_no_raw_id].
    rewrite N.add_0_r. exact Hcoll.
  - apply (Hget 1%N (list_to_map bmw_x5) [c2] [c0]);
      [lia|exact Hcoll| |apply car_record_no_id|apply car_record_no_raw_id].
    constructor; [|constructor]. unfold c0.
    rewrite <- (N.add_0_r (next_oid db)) at 2. by apply Hdiff.
  - apply (Hget 2%N (list_to_map toyota_corolla) [] [c0; c1]);
      [lia|exact Hcoll| |apply car_record_no_id|apply car_record_no_raw_id].
    constructor; [|constructor; [|constructor]].
    + unfold c0. rewrite <- (N.add_0_r (next_oid db)) at 2. by apply Hdiff.
    + unfold c1. by apply Hdiff.
Qed.

(** X16.  [POST /api/seed] writes to the cars only: every other
    collection is as it was; and after it the unfiltered car listing with
    the default limit counts every car there is, three after a seed that
    found none. *)
Theorem seed_then_list_cars (db : database) :
  ∃ db',
    (seed_demo_cars (Some db)).2 = Some db'
    ∧ (∀ name, name ≠ "car" → coll db' name = coll db name)
    ∧ (coll db "car" = [] →
       ∃ body,
         list_cars (Some db') None None None None None None None None None
           = Return body
         ∧ count body = 3).
Proof.
  unfold seed_demo_cars. rewrite count_documents_all.
  destruct (coll db "car") as [|c0 cs] eqn:Hc.
  - exists (insert_many db "car" seed_cars). split; [done|]. split.
    + intros name Hne. by apply coll_insert_many_ne.
    + intros _.
      assert (Hv : valid_request None None None None)
        by (apply valid_request_plain; simpl; lia).
      rewrite (list_cars_unfold _ _ _ _ _ _ _ _ _ _ Hv).
      assert (Hcur : car_cursor (insert_many db "car" seed_cars) None None None
                       None None None None None None
                     = coll (insert_many db "car" seed_cars) "car").
      { unfold car_cursor. cbv zeta.
        change (car_query None None None None None None None) with (∅ : query).
        rewrite find_all. cbn [truthy]. apply limit_all.
        rewrite (insert_many_seed_cars _ Hc). simpl. lia. }
      rewrite Hcur, (insert_many_seed_cars _ Hc).
      rewrite serialize_all_stored.
      * unfold mbind, result_bind. eexists. split; [done|]. done.
      * intros d Hd.
        repeat (apply elem_of_cons in Hd as [->|Hd];
                [rewrite lookup_insert_eq; by eexists|]).
        by apply elem_of_nil in Hd.
  - exists db. split; [done|]. split; [done|]. done.
Qed.

End SeedMore.

Lemma seed_then_get_car_witness :
  coll (Database ∅ 0) "car" = []
  ∧ (next_oid (Database ∅ 0) + 2 < 2 ^ 96)%N
  ∧ ∃ db',
      (seed_demo_cars (Some (Database ∅ 0))).2 = Some db'
      ∧ get_car (Some db') "000000000000000000000002"
        = Return (Some (<["id" := VStr "000000000000000000000002"]>
                          (list_to_map toyota_corolla))).
Proof.
  assert (Hn : coll (Database ∅ 0) "car" = []) by reflexivity.
  assert (Hb : (next_oid (Database ∅ 0) + 2 < 2 ^ 96)%N) by (vm_compute; reflexivity).
  split; [exact Hn|]. split; [exact Hb|].
  destruct (seed_then_get_car (Database ∅ 0) Hn Hb) as (db' & Hseed & _ & _ & Hget).
  exists db'. split; [exact Hseed|].
  change (Bson.oid_str (Bson.Oid (next_oid (Database ∅ 0) + 2)))
    with "000000000000000000000002" in Hget.
  exact Hget.
Defined.

(* ================================================================== *)
(** ** Further properties: filters, the mock booking, diagnostics *)
(* ================================================================== *)

Lemma filter_of_dropped o o' c :
  dropped o o' → filter_of o' = Some c → filter_of o = Some c.
Proof. by intros [->| ->]. Qed.

Lemma seats_dropped (o o' : option Z) c :
  dropped o o' →
  (λ n, Range (Some (Int n)) None) <$> o' = Some c →
  (λ n, Range (Some (Int n)) None) <$> o = Some c.
Proof. by intros [->| ->]. Qed.

Lemma price_range_dropped mn mn' mx mx' c' :
  dropped mn mn' → dropped mx mx' →
  price_range mn' mx' = Some c' →
  ∃ c, price_range mn mx = Some c ∧ ∀ f, test c f = true → test c' f = true.
Proof.
  intros [->| ->] [->| ->] Hc'; try done.
  - destruct mn as [a|]; [|by eexists].
    destruct mx as [b|]; simpl in Hc'; [|done]. injection Hc' as <-.
    eexists. split; [done|]. intros [v|]; simpl; [|done].
    by intros [_ ->]%andb_true_iff.
  - destruct mx as [b|]; [|by eexists].
    destruct mn as [a|]; simpl in Hc'; [|done]. injection Hc' as <-.
    eexists. split; [done|]. intros [v|]; simpl; [|done].
    intros [-> _]%andb_true_iff. done.
  - by eexists.
Qed.

(** X17.  Filters only narrow: a car found with some filters is found
    again when any of them is dropped. *)
Theorem car_query_narrows (c : collection)
    type brand transmission fuel_type seats_gte min_price max_price
    type' brand' transmission' fuel_type' seats_gte' min_price' max_price' d :
  dropped type type' → dropped brand brand' →
  dropped transmission transmission' → dropped fuel_type fuel_type' →
  dropped seats_gte seats_gte' →
  dropped min_price min_price' → dropped max_price max_price' →
  d ∈ find c (car_query type brand transmission fuel_type seats_gte
                min_price max_price) →
  d ∈ find c (car_query type' brand' transmission' fuel_type' seats_gte'
                min_price' max_price').
Proof.
  intros Ht Hb Htr Hf Hs Hmn Hmx [Hd Hm]%elem_of_find.
  apply elem_of_find. split; [done|]. apply matches_spec. intros k cnd Hk.
  pose proof (proj1 (matches_spec _ _) Hm k) as Hall.
  rewrite lookup_car_query in Hk, Hall.
  repeat case_decide; subst.
  - destruct (price_range_dropped _ _ _ _ _ Hmn Hmx Hk) as (c0 & Hc0 & Himp).
    by apply Himp, Hall.
  - by apply Hall, (seats_dropped _ _ _ Hs).
  - by apply Hall, (filter_of_dropped _ _ _ Hf).
  - by apply Hall, (filter_of_dropped _ _ _ Htr).
  - by apply Hall, (filter_of_dropped _ _ _ Hb).
  - by apply Hall, (filter_of_dropped _ _ _ Ht).
  - done.
Qed.

Lemma car_query_narrows_witness :
  <["_id" := VOid (Bson.Oid 0)]> (list_to_map tesla_model_3)
    ∈ find (coll seeded "car")
        (car_query (Some "sedan") None None (Some "electric") None
           (Some 50%Q) (Some 100%Q))
  ∧ <["_id" := VOid (Bson.Oid 0)]> (list_to_map tesla_model_3)
    ∈ find (coll seeded "car")
        (car_query (Some "sedan") None None None None None (Some 100%Q)).
Proof.
  assert (Hin : <["_id" := VOid (Bson.Oid 0)]> (list_to_map tesla_model_3)
                ∈ find (coll seeded "car")
                    (car_query (Some "sedan") None None (Some "electric") None
                       (Some 50%Q) (Some 100%Q))).
  { apply elem_of_find. split; [rewrite seeded_cars; left|].
    vm_compute. reflexivity. }
  split; [exact Hin|].
  apply (car_query_narrows (coll seeded "car")
           (Some "sedan") None None (Some "electric") None (Some 50%Q) (Some 100%Q)
           (Some "sedan") None None None None None (Some 100%Q) _);
    [right; reflexivity|right; reflexivity|right; reflexivity|left; reflexivity
    |right; reflexivity|left; reflexivity|right; reflexivity|exact Hin].
Defined.

Lemma take_chars_spec (n : nat) (s : string) :
  char_count (take_chars n s) = Nat.min n (char_count s)
  ∧ String.prefix (take_chars n s) s = true.
Proof.
  revert n. induction s as [|c s IH]; intros n; cbn [take_chars char_count].
  { split; [lia|done]. }
  destruct (is_continuation c) eqn:Hc.
  - cbn [char_count String.prefix]. rewrite Hc. destruct (IH n) as [-> ->].
    split; [done|]. by destruct (Ascii.ascii_dec c c).
  - destruct n as [|n]; [done|].
    cbn [char_count String.prefix]. rewrite Hc. destruct (IH n) as [-> ->].
    split; [lia|]. by destruct (Ascii.ascii_dec c c).
Qed.

(** X19.  In the diagnostics, [database_url] and [database_name] say only
    whether the two environment variables are set to something that is not
    empty: what the [try] block wrote there, the name [db.name] returned
    included, is overwritten, so that the answer is the same whatever name
    [db.name] returns. *)
Theorem test_database_env_flags (db : option handle)
    (DATABASE_URL DATABASE_NAME : option string) :
  let response := test_database db DATABASE_URL DATABASE_NAME in
  response !! "database_url" = Some (env_flag DATABASE_URL)
  ∧ response !! "database_name" = Some (env_flag DATABASE_NAME)
  ∧ response !! "backend" = Some (VStr "✅ Running")
  ∧ ∀ n n' names,
      test_database (Some (Handle (inr n) names)) DATABASE_URL DATABASE_NAME
      = test_database (Some (Handle (inr n') names)) DATABASE_URL DATABASE_NAME.
Proof.
  cbv zeta. unfold test_database. cbv zeta. split_and!.
  - by rewrite lookup_insert_ne, lookup_insert_eq.
  - by rewrite lookup_insert_eq.
  - destruct db as [[[e'|n] [e|l]]|]; by vm_compute.
  - intros n n' [e|l]; cbn [name list_collection_names];
      apply map_eq; intros k;
      destruct (decide (k = "database_name")) as [->|];
      rewrite ?lookup_insert_eq, ?lookup_insert_ne by done; try done;
      destruct (decide (k = "database_url")) as [->|];
      rewrite ?lookup_insert_eq, ?lookup_insert_ne by done; try done;
      destruct (decide (k = "collections")) as [->|];
      rewrite ?lookup_insert_eq, ?lookup_insert_ne by done; try done;
      destruct (decide (k = "database")) as [->|];
      rewrite ?lookup_insert_eq, ?lookup_insert_ne by done; try done;
      destruct (decide (k = "connection_status")) as [->|];
      rewrite ?lookup_insert_eq, ?lookup_insert_ne by done; try done.
Qed.


(** X21.  [PyObjectId.validate], on a string: it raises [ValueError]
    exactly on what [ObjectId.is_valid] rejects, a string that is not 24
    characters long or that [bytes.fromhex] refuses; otherwise it returns
    what the [ObjectId] constructor returns, and no exception of the
    constructor escapes it; the text of a twelve-byte identifier validates
    to that identifier. *)
Theorem validate_contract (v : string) :
  (validate v = ValueError "Invalid objectid" ↔ Bson.is_valid v = false)
  ∧ (∀ o, validate v = Validated o ↔ ObjectId v = Return o)
  ∧ (∀ e, validate v ≠ Escaped e)
  ∧ (∀ n, (n < 2 ^ 96)%N →
          validate (Bson.oid_str (Bson.Oid n)) = Validated (Bson.Oid n)).
Proof.
  assert (Hrt : ∀ n, (n < 2 ^ 96)%N →
                     validate (Bson.oid_str (Bson.Oid n)) = Validated (Bson.Oid n)).
  { intros n Hn. unfold validate.
    rewrite (ObjectId_valid _ (Bson.Oid n)) by (by apply ObjectId_str).
    cbn [negb]. by rewrite ObjectId_str. }
  unfold validate. destruct (Bson.is_valid v) eqn:Hv; cbn [negb].
  - apply is_valid_ObjectId in Hv as [o Ho]. rewrite Ho.
    split_and!; [done| |done|done].
    intros o'. split; congruence.
  - split_and!; [done| |done|done].
    intros o. split; [done|]. intros Ho%ObjectId_valid. congruence.
Qed.
